(** * USB audio / I2S demo: feedback, pump and control bridge

    A shallow embedding of the USB_AUDIO_I2S demo (main.c and audio.h):
    the start-of-frame capture that produces the sample-rate feedback, the
    feedback endpoint callback, the I2S half-buffer pump and the handler of
    the feature-unit (mute and volume) control requests.

    Conventions.  C integers are [Z] with the wrap-around of their width
    written out; byte buffers are lists of [Z] in the range 0..255; the
    target is a little-endian Cortex-M, so an [int16_t] occupies two
    consecutive bytes, low byte first.  A memory access outside the array it
    addresses has no defined behaviour in C: the embedding returns [None]
    there.  Peripheral registers other than the two values the timer
    interrupt reads are not part of the model. *)

From Stdlib Require Import ZArith List Bool Lia.
From stdpp Require Import base list.
Import ListNotations.

Local Open Scope Z_scope.

(** ** Fixed-width integers *)

Definition UINT32_MAX : Z := 0xFFFFFFFF.

Definition u8 (z : Z) : Z := z mod 2 ^ 8.
Definition u32 (z : Z) : Z := z mod 2 ^ 32.

(** [int16_t] from its 16-bit pattern. *)
Definition s16 (z : Z) : Z :=
  let w := z mod 2 ^ 16 in if w <? 2 ^ 15 then w else w - 2 ^ 16.

(** The two bytes of an [int16_t] in memory, and the value two bytes hold. *)
Definition int16_bytes (v : Z) : list Z := [u8 v; u8 (Z.shiftr v 8)].
Definition int16_of_bytes (b0 b1 : Z) : Z := s16 (Z.lor b0 (Z.shiftl b1 8)).

(** Conversions between [bool] and the byte that stores it. *)
Definition bool_of_u8 (b : Z) : bool := negb (b =? 0).
Definition u8_of_bool (b : bool) : Z := if b then 1 else 0.

(** Little-endian encoding of [x] on [n] bytes, as the text of the feedback
    format describes it. *)
Fixpoint le_bytes (n : nat) (x : Z) : list Z :=
  match n with
  | O => []
  | S k => x mod 256 :: le_bytes k (x / 256)
  end.

(** ** Guarded array accesses *)

Definition arr_read {A} (l : list A) (i : Z) : option A :=
  if decide (0 <= i) then l !! Z.to_nat i else None.

Definition arr_write {A} (l : list A) (i : Z) (v : A) : option (list A) :=
  if decide (0 <= i < Z.of_nat (length l))
  then Some (<[Z.to_nat i := v]> l) else None.

(** [memcpy (dst + off, src, length src)]. *)
Fixpoint memcpy (dst : list Z) (off : Z) (src : list Z) : option (list Z) :=
  match src with
  | [] => Some dst
  | b :: rest =>
      match arr_write dst off b with
      | Some dst' => memcpy dst' (off + 1) rest
      | None => None
      end
  end.

(** ** audio.h *)

Definition UAC_REQ_SET_CUR : Z := 0x01.
Definition UAC_REQ_SET_MIN : Z := 0x02.
Definition UAC_REQ_SET_MAX : Z := 0x03.
Definition UAC_REQ_SET_RES : Z := 0x04.
Definition UAC_REQ_GET_CUR : Z := 0x81.
Definition UAC_REQ_GET_MIN : Z := 0x82.
Definition UAC_REQ_GET_MAX : Z := 0x83.
Definition UAC_REQ_GET_RES : Z := 0x84.

Definition UAC_FU_MUTE_CONTROL : Z := 0x01.
Definition UAC_FU_VOLUME_CONTROL : Z := 0x02.

Definition EVENT_MASK (n : Z) : Z := Z.shiftl 1 n.
Definition AUDIO_EVENT_PLAYBACK : Z := EVENT_MASK 1.
Definition AUDIO_EVENT_MUTE : Z := EVENT_MASK 2.
Definition AUDIO_EVENT_VOLUME : Z := EVENT_MASK 3.
Definition AUDIO_EVENT_USB_STATE : Z := EVENT_MASK 4.

Definition AUDIO_SAMPLING_FREQUENCY : Z := 48000.
Definition AUDIO_RESOLUTION : Z := 16.
Definition AUDIO_CHANNELS : Z := 2.
Definition AUDIO_SAMPLES_PER_FRAME : Z := AUDIO_SAMPLING_FREQUENCY / 1000.
Definition AUDIO_PACKET_SIZE : Z :=
  AUDIO_SAMPLES_PER_FRAME * AUDIO_CHANNELS * AUDIO_RESOLUTION / 8.
Definition AUDIO_MAX_PACKET_SIZE : Z := AUDIO_PACKET_SIZE + 4.
Definition AUDIO_BUFFER_SIZE : Z := AUDIO_SAMPLES_PER_FRAME * 2 * 2.
Definition AUDIO_QUEUE_SIZE : Z := AUDIO_MAX_PACKET_SIZE * 4.

(** [audio_state_t].  The event source is the set of flags broadcast so
    far, the input queue the bytes it holds (oldest first), and the thread
    reference [pump] is [true] while the pump thread is parked on it. *)
Record audio_state_t := mk_audio {
  audio_events : Z;
  audio_queue : list Z;
  pump : bool;
  playback : bool;
  sof_feedback_valid : bool;
  mute : list bool;
  volume : list Z
}.

(** ** The globals of main.c *)

(** The frame-rate feedback variables. *)
Record sof_t := mk_sof {
  sof_last_counter : Z;
  sof_delta : Z;
  sof_first : bool;
  sof_delta_count : Z;
  sof_feedback_data : list Z
}.

(** The I2S buffer (as bytes), the fill pointer (a byte offset into the
    buffer, [None] for the null pointer) and the fill size; [pump_ready]
    records that the pump thread was made ready by [chThdResumeI]. *)
Record i2s_t := mk_i2s {
  dac_buffer : list Z;
  bufferp : option Z;
  buffern : Z;
  pump_ready : bool
}.

(** The buffers a USB transfer can point to. *)
Inductive buf_ptr := PTR_NULL | PTR_control_data | PTR_sof_feedback_data.

(** The completion callbacks of a control transfer. *)
Inductive usbcallback := CB_NULL | CB_notify_mute | CB_notify_volume.

(** What the demo sets in the USB driver: the data stage of the control
    transfer ([usbSetupTransfer]), and the transmission and reception
    prepared and started on endpoint 1. *)
Record usb_t := mk_usb {
  ep0 : option (buf_ptr * Z * usbcallback);
  ep1_tx : option (buf_ptr * Z);
  ep1_transmitting : bool;
  ep1_rx : option Z;
  ep1_receiving : bool
}.

Record machine := mk_machine {
  audio : audio_state_t;
  sof : sof_t;
  i2s : i2s_t;
  control_data : list Z;
  control_channel : Z;
  usb : usb_t
}.

Definition with_audio (a : audio_state_t) (m : machine) : machine :=
  mk_machine a (sof m) (i2s m) (control_data m) (control_channel m) (usb m).
Definition with_sof (s : sof_t) (m : machine) : machine :=
  mk_machine (audio m) s (i2s m) (control_data m) (control_channel m) (usb m).
Definition with_i2s (b : i2s_t) (m : machine) : machine :=
  mk_machine (audio m) (sof m) b (control_data m) (control_channel m) (usb m).
Definition with_control_data (d : list Z) (m : machine) : machine :=
  mk_machine (audio m) (sof m) (i2s m) d (control_channel m) (usb m).
Definition with_control_channel (c : Z) (m : machine) : machine :=
  mk_machine (audio m) (sof m) (i2s m) (control_data m) c (usb m).
Definition with_usb (u : usb_t) (m : machine) : machine :=
  mk_machine (audio m) (sof m) (i2s m) (control_data m) (control_channel m) u.

Definition set_audio_events (e : Z) (a : audio_state_t) : audio_state_t :=
  mk_audio e (audio_queue a) (pump a) (playback a) (sof_feedback_valid a)
           (mute a) (volume a).
Definition set_audio_queue (q : list Z) (a : audio_state_t) : audio_state_t :=
  mk_audio (audio_events a) q (pump a) (playback a) (sof_feedback_valid a)
           (mute a) (volume a).
Definition set_pump (p : bool) (a : audio_state_t) : audio_state_t :=
  mk_audio (audio_events a) (audio_queue a) p (playback a)
           (sof_feedback_valid a) (mute a) (volume a).
Definition set_playback (p : bool) (a : audio_state_t) : audio_state_t :=
  mk_audio (audio_events a) (audio_queue a) (pump a) p (sof_feedback_valid a)
           (mute a) (volume a).
Definition set_sof_feedback_valid (v : bool) (a : audio_state_t)
  : audio_state_t :=
  mk_audio (audio_events a) (audio_queue a) (pump a) (playback a) v
           (mute a) (volume a).
Definition set_mute (l : list bool) (a : audio_state_t) : audio_state_t :=
  mk_audio (audio_events a) (audio_queue a) (pump a) (playback a)
           (sof_feedback_valid a) l (volume a).
Definition set_volume (l : list Z) (a : audio_state_t) : audio_state_t :=
  mk_audio (audio_events a) (audio_queue a) (pump a) (playback a)
           (sof_feedback_valid a) (mute a) l.

(** Modelled from the spec: [chEvtBroadcastFlagsI (&audio.audio_events,
    flags)] is a kernel call; it broadcasts a notification, recorded here by
    adding the flags to those of the event source. *)
Definition chEvtBroadcastFlagsI (flags : Z) (m : machine) : machine :=
  with_audio (set_audio_events (Z.lor (audio_events (audio m)) flags) (audio m)) m.

(** ** Start-of-frame capture *)

(** The value the interrupt handler adds to [sof_delta]: the two branches of
    the comparison of the previous counter with the captured one. *)
Definition sof_increment (last value : Z) : Z :=
  if last <? value
  then u32 (value - last)
  else u32 (u32 (UINT32_MAX - last) + value).

(** The three bytes written to [sof_feedback_data]. *)
Definition sof_feedback_bytes (delta : Z) : list Z :=
  let f1014 := Z.land (u32 (Z.shiftl delta 1)) 0xFFFFFF in
  [u8 (Z.land f1014 0xFF);
   u8 (Z.land (Z.shiftr f1014 8) 0xFF);
   u8 (Z.land (Z.shiftr f1014 16) 0xFF)].

Section TIM2.

(** The trigger-interrupt flag of the timer status register; its value comes
    from the device header, which the demo includes through hal.h. *)
Variable TIM_SR_TIF : Z.

(** The interrupt handler, given the counter [value] and the status register
    [sr] it reads.  [sof_delta_count] is an [int]; it stays within 0..31
    (see [sof_count_range]), so its increment never overflows. *)
Definition STM32_TIM2_HANDLER (value sr : Z) (m : machine) : machine :=
  if Z.land sr TIM_SR_TIF =? 0 then m
  else
    let s := sof m in
    let m1 :=
      if sof_first s then m
      else
        let delta := u32 (sof_delta s + sof_increment (sof_last_counter s) value) in
        if sof_delta_count s =? 31 then
          with_audio (set_sof_feedback_valid true (audio m))
            (with_sof (mk_sof (sof_last_counter s) 0 (sof_first s) 0
                              (sof_feedback_bytes delta)) m)
        else
          with_sof (mk_sof (sof_last_counter s) delta (sof_first s)
                           (sof_delta_count s + 1) (sof_feedback_data s)) m in
    let s1 := sof m1 in
    with_sof (mk_sof value (sof_delta s1) false (sof_delta_count s1)
                     (sof_feedback_data s1)) m1.

(** The handler run on a sequence of (counter, status) readings. *)
Definition run_TIM2 (caps : list (Z * Z)) (m : machine) : machine :=
  fold_left (fun st c => STM32_TIM2_HANDLER (fst c) (snd c) st) caps m.

End TIM2.

Definition start_sof_capture (m : machine) : machine :=
  with_audio (set_sof_feedback_valid false (audio m))
    (with_sof (mk_sof 0 0 true 0 (sof_feedback_data (sof m))) m).

Definition stop_sof_capture (m : machine) : machine :=
  with_audio (set_sof_feedback_valid false (audio m)) m.

(** ** Endpoint 1 callbacks *)

(** Modelled from the spec: [usbPrepareTransmit] belongs to the USB driver;
    it records the buffer and the size of the next transmission of the
    endpoint. *)
Definition usbPrepareTransmit (buf : buf_ptr) (n : Z) (m : machine) : machine :=
  let u := usb m in
  with_usb (mk_usb (ep0 u) (Some (buf, n)) (ep1_transmitting u) (ep1_rx u)
                   (ep1_receiving u)) m.

(** Modelled from the spec: [usbStartTransmitI] belongs to the USB driver; it
    arms the transmission prepared. *)
Definition usbStartTransmitI (m : machine) : machine :=
  let u := usb m in
  with_usb (mk_usb (ep0 u) (ep1_tx u) true (ep1_rx u) (ep1_receiving u)) m.

(** Modelled from the spec: [usbPrepareQueuedReceive] belongs to the USB
    driver; it records that up to [n] bytes are to be received into
    [audio.audio_queue]. *)
Definition usbPrepareQueuedReceive (n : Z) (m : machine) : machine :=
  let u := usb m in
  with_usb (mk_usb (ep0 u) (ep1_tx u) (ep1_transmitting u) (Some n)
                   (ep1_receiving u)) m.

(** Modelled from the spec: [usbStartReceiveI] belongs to the USB driver; it
    arms the reception prepared. *)
Definition usbStartReceiveI (m : machine) : machine :=
  let u := usb m in
  with_usb (mk_usb (ep0 u) (ep1_tx u) (ep1_transmitting u) (ep1_rx u) true) m.

Definition audio_feedback (m : machine) : machine :=
  if playback (audio m) then
    let m1 :=
      if sof_feedback_valid (audio m)
      then usbPrepareTransmit PTR_sof_feedback_data 3 m
      else usbPrepareTransmit PTR_NULL 0 m in
    usbStartTransmitI m1
  else m.

Definition audio_received (m : machine) : machine :=
  if playback (audio m) then
    usbStartReceiveI (usbPrepareQueuedReceive AUDIO_MAX_PACKET_SIZE m)
  else m.

(** The bytes a buffer pointer designates, and the bytes a started
    transmission on endpoint 1 sends: the first [n] bytes at the pointer
    prepared, as they are when the packet goes out. *)
Definition deref (p : buf_ptr) (m : machine) : list Z :=
  match p with
  | PTR_NULL => []
  | PTR_control_data => control_data m
  | PTR_sof_feedback_data => sof_feedback_data (sof m)
  end.

Definition ep1_armed (m : machine) : option (list Z) :=
  if ep1_transmitting (usb m) then
    match ep1_tx (usb m) with
    | Some (p, n) => Some (take (Z.to_nat n) (deref p m))
    | None => None
    end
  else None.

(** ** The pump thread and the I2S callback *)

(** Modelled from the spec: [chThdSuspendS (&audio.pump)] is a kernel call;
    it parks the calling thread on the reference. *)
Definition chThdSuspendS (m : machine) : machine :=
  let b := i2s m in
  with_audio (set_pump true (audio m))
    (with_i2s (mk_i2s (dac_buffer b) (bufferp b) (buffern b) false) m).

(** Modelled from the spec: [chThdResumeI (&audio.pump, MSG_OK)] is a kernel
    call; it makes a parked thread ready and clears the reference, and does
    nothing when no thread is parked ("resumes at most one waiter"). *)
Definition chThdResumeI (m : machine) : machine :=
  if pump (audio m) then
    let b := i2s m in
    with_audio (set_pump false (audio m))
      (with_i2s (mk_i2s (dac_buffer b) (bufferp b) (buffern b) true) m)
  else m.

(** [i2s_callback (i2sp, off, n)]: the transmit buffer of the configuration
    is [dac_buffer], [off] counts 16-bit samples, [buffern] is a [size_t]. *)
Definition i2s_callback (off n : Z) (m : machine) : machine :=
  let b := i2s m in
  chThdResumeI
    (with_i2s (mk_i2s (dac_buffer b) (Some (2 * off)) (u32 (n * 2))
                      (pump_ready b)) m).

Inductive systime_t := TIME_IMMEDIATE | TIME_INFINITE | TIME_TICKS (t : Z).

(** Outcome of a read from the input queue: the call returned with the
    bytes transferred and the bytes left in the queue, or it is waiting for
    more data having transferred some. *)
Inductive iq_result :=
| IQ_returned (bytes rest : list Z)
| IQ_waiting (bytes : list Z).

(** Modelled from the spec: [chIQGetFullI] belongs to the HAL queues, whose
    code is not part of the demo; it is the number of bytes queued. *)
Definition chIQGetFullI (q : list Z) : Z := Z.of_nat (length q).

(** Modelled from the spec: [chIQReadTimeout] belongs to the HAL queues,
    whose code is not part of the demo.  It moves up to [n] bytes from the
    queue to the destination in FIFO order; when the queue runs empty before
    [n] bytes were moved, an immediate timeout returns at once with what was
    moved and any other timeout waits. *)
Definition chIQReadTimeout (q : list Z) (n : Z) (timeout : systime_t)
  : iq_result :=
  let k := Z.to_nat n in
  if decide (k <= length q)%nat then IQ_returned (take k q) (drop k q)
  else match timeout with
       | TIME_IMMEDIATE => IQ_returned q []
       | _ => IQ_waiting q
       end.

(** Where the pump thread is after a run. *)
Inductive thread_state :=
| T_suspended (m : machine)
| T_in_queue_read (m : machine).

(** [memcpy] to a pointer into [dac_buffer]. *)
Definition write_dac (buf : list Z) (p : option Z) (bytes : list Z)
  : option (list Z) :=
  match p with
  | Some off => memcpy buf off bytes
  | None => match bytes with [] => Some buf | _ => None end
  end.

(** One turn of the loop of [Thread1], from the return of [chThdSuspendS] to
    the next call of it. *)
Definition Thread1 (m : machine) : option thread_state :=
  let qs := chIQGetFullI (audio_queue (audio m)) in
  let b := i2s m in
  if buffern b <=? qs then
    match chIQReadTimeout (audio_queue (audio m)) (buffern b) TIME_IMMEDIATE with
    | IQ_returned bytes rest =>
        match write_dac (dac_buffer b) (bufferp b) bytes with
        | Some buf =>
            Some (T_suspended
                    (chThdSuspendS
                       (with_audio (set_audio_queue rest (audio m))
                          (with_i2s (mk_i2s buf (bufferp b) (buffern b)
                                            (pump_ready b)) m))))
        | None => None
        end
    | IQ_waiting bytes =>
        match write_dac (dac_buffer b) (bufferp b) bytes with
        | Some buf =>
            Some (T_in_queue_read
                    (with_audio (set_audio_queue [] (audio m))
                       (with_i2s (mk_i2s buf (bufferp b) (buffern b)
                                         (pump_ready b)) m)))
        | None => None
        end
    end
  else Some (T_suspended (chThdSuspendS m)).

(** ** Control requests of the feature unit *)

(** Computations on the machine that may fault. *)
Definition M (A : Type) : Type := machine -> option (A * machine).

Definition ret {A} (a : A) : M A := fun m => Some (a, m).
Definition bind {A B} (c : M A) (k : A -> M B) : M B :=
  fun m => match c m with Some (a, m') => k a m' | None => None end.
Definition gets {A} (f : machine -> A) : M A := fun m => Some (f m, m).
Definition modify (f : machine -> machine) : M unit := fun m => Some (tt, f m).
Definition lift {A} (o : option A) : M A :=
  fun m => match o with Some a => Some (a, m) | None => None end.

Notation "'let*' x ':=' c 'in' k" := (bind c (fun x => k))
  (at level 10, x name, c at level 100, k at level 200).

(** Modelled from the spec: [usbSetupTransfer] belongs to the USB driver; it
    records the buffer, the size and the completion callback of the data
    stage of the control transfer being served. *)
Definition set_ep0 (t : option (buf_ptr * Z * usbcallback)) (m : machine)
  : machine :=
  let u := usb m in
  with_usb (mk_usb t (ep1_tx u) (ep1_transmitting u) (ep1_rx u)
                   (ep1_receiving u)) m.

Definition usbSetupTransfer (buf : buf_ptr) (n : Z) (endcb : usbcallback)
  : M unit :=
  modify (set_ep0 (Some (buf, n, endcb))).

Definition store_control_data (off : Z) (src : list Z) : M unit :=
  let* d := gets control_data in
  let* d' := lift (memcpy d off src) in
  modify (with_control_data d').

Definition load_control_data (i : Z) : M Z :=
  let* d := gets control_data in lift (arr_read d i).

Definition notify_volume : M unit :=
  let* ch := gets control_channel in
  let* _ :=
    if ch =? 0xff then
     let* b2 := load_control_data 2 in
     let* b3 := load_control_data 3 in
     let* b4 := load_control_data 4 in
     let* b5 := load_control_data 5 in
     let* v := gets (fun m => volume (audio m)) in
     let* v0 := lift (arr_write v 0 (int16_of_bytes b2 b3)) in
     let* v1 := lift (arr_write v0 1 (int16_of_bytes b4 b5)) in
     modify (fun m => with_audio (set_volume v1 (audio m)) m)
   else
     let* b0 := load_control_data 0 in
     let* b1 := load_control_data 1 in
     let* v := gets (fun m => volume (audio m)) in
     let* v' := lift (arr_write v (ch - 1) (int16_of_bytes b0 b1)) in
     modify (fun m => with_audio (set_volume v' (audio m)) m) in
  modify (chEvtBroadcastFlagsI AUDIO_EVENT_VOLUME).

Definition notify_mute : M unit :=
  let* ch := gets control_channel in
  let* _ :=
    if ch =? 0xff then
     let* b1 := load_control_data 1 in
     let* b2 := load_control_data 2 in
     let* t := gets (fun m => mute (audio m)) in
     let* t0 := lift (arr_write t 0 (bool_of_u8 b1)) in
     let* t1 := lift (arr_write t0 1 (bool_of_u8 b2)) in
     modify (fun m => with_audio (set_mute t1 (audio m)) m)
   else
     let* b0 := load_control_data 0 in
     let* t := gets (fun m => mute (audio m)) in
     let* t' := lift (arr_write t (ch - 1) (bool_of_u8 b0)) in
     modify (fun m => with_audio (set_mute t' (audio m)) m) in
  modify (chEvtBroadcastFlagsI AUDIO_EVENT_MUTE).

(** [for (int i = 0; i < length; i++) ((int16_t* )control_data)[i] = v],
    with [count] iterations left and [i] the current index. *)
Fixpoint fill_int16 (count : nat) (i v : Z) (d : list Z) : option (list Z) :=
  match count with
  | O => Some d
  | S k =>
      match memcpy d (2 * i) (int16_bytes v) with
      | Some d' => fill_int16 k (i + 1) v d'
      | None => None
      end
  end.

Definition fill_control_data (length v : Z) : M unit :=
  let* d := gets control_data in
  let* d' := lift (fill_int16 (Z.to_nat length) 0 v d) in
  modify (with_control_data d').

(** The byte offsets of [control_data] the loop above stores to. *)
Definition fill_offsets (length : Z) : list Z :=
  flat_map (fun i => [2 * Z.of_nat i; 2 * Z.of_nat i + 1])
           (seq 0 (Z.to_nat length)).

(** The [switch] of [audio_volume_control] has no [break]: a case whose
    test on [ctrl] fails continues with the statements of the next case.
    Each case is a function that ends by returning or by entering the case
    below it. *)

Definition case_default : M bool := ret false.

Definition case_SET_CUR (ctrl channel length : Z) : M bool :=
  if ctrl =? UAC_FU_MUTE_CONTROL then
    let* _ := modify (with_control_channel channel) in
    let* _ := usbSetupTransfer PTR_control_data length CB_notify_mute in
    ret true
  else if ctrl =? UAC_FU_VOLUME_CONTROL then
    let* _ := modify (with_control_channel channel) in
    let* _ := usbSetupTransfer PTR_control_data length CB_notify_volume in
    ret true
  else case_default.

Definition case_GET_CUR (ctrl channel length : Z) : M bool :=
  if ctrl =? UAC_FU_MUTE_CONTROL then
    let* t := gets (fun m => mute (audio m)) in
    let* _ :=
      if channel =? 0xff then
        let* t0 := lift (arr_read t 0) in
        let* t1 := lift (arr_read t 1) in
        let* _ := store_control_data 0 [0; u8_of_bool t0; u8_of_bool t1] in
        usbSetupTransfer PTR_control_data length CB_NULL
      else
        let* b := lift (arr_read t (channel - 1)) in
        let* _ := store_control_data 0 [u8_of_bool b] in
        usbSetupTransfer PTR_control_data length CB_NULL in
    ret true
  else if ctrl =? UAC_FU_VOLUME_CONTROL then
    let* v := gets (fun m => volume (audio m)) in
    let* _ :=
      if channel =? 0xff then
        let* v0 := lift (arr_read v 0) in
        let* v1 := lift (arr_read v 1) in
        let* _ := store_control_data 0
                    (int16_bytes 0 ++ int16_bytes v0 ++ int16_bytes v1) in
        usbSetupTransfer PTR_control_data length CB_NULL
      else
        let* x := lift (arr_read v (channel - 1)) in
        let* _ := store_control_data 0 (int16_bytes x) in
        usbSetupTransfer PTR_control_data length CB_NULL in
    ret true
  else case_SET_CUR ctrl channel length.

Definition case_GET_RES (ctrl channel length : Z) : M bool :=
  if ctrl =? UAC_FU_VOLUME_CONTROL then
    let* _ := fill_control_data length 128 in
    let* _ := usbSetupTransfer PTR_control_data length CB_NULL in
    ret true
  else case_GET_CUR ctrl channel length.

Definition case_GET_MIN (ctrl channel length : Z) : M bool :=
  if ctrl =? UAC_FU_VOLUME_CONTROL then
    let* _ := fill_control_data length (-96 * 256) in
    let* _ := usbSetupTransfer PTR_control_data length CB_NULL in
    ret true
  else case_GET_RES ctrl channel length.

Definition case_GET_MAX (ctrl channel length : Z) : M bool :=
  if ctrl =? UAC_FU_VOLUME_CONTROL then
    let* _ := fill_control_data length 0 in
    let* _ := usbSetupTransfer PTR_control_data length CB_NULL in
    ret true
  else case_GET_MIN ctrl channel length.

Definition case_SET_MAX_MIN_RES (ctrl channel length : Z) : M bool :=
  if ctrl =? UAC_FU_VOLUME_CONTROL then
    let* _ := usbSetupTransfer PTR_control_data length CB_NULL in
    ret true
  else case_GET_MAX ctrl channel length.

Definition audio_volume_control (req ctrl channel length : Z) : M bool :=
  if (req =? UAC_REQ_SET_MAX) || (req =? UAC_REQ_SET_MIN)
     || (req =? UAC_REQ_SET_RES)
  then case_SET_MAX_MIN_RES ctrl channel length
  else if req =? UAC_REQ_GET_MAX then case_GET_MAX ctrl channel length
  else if req =? UAC_REQ_GET_MIN then case_GET_MIN ctrl channel length
  else if req =? UAC_REQ_GET_RES then case_GET_RES ctrl channel length
  else if req =? UAC_REQ_GET_CUR then case_GET_CUR ctrl channel length
  else if req =? UAC_REQ_SET_CUR then case_SET_CUR ctrl channel length
  else case_default.

Definition AUDIO_CONTROL_INTERFACE : Z := 0.
Definition AUDIO_FUNCTION_UNIT_ID : Z := 2.

Definition audio_control (iface entity req wValue length : Z) : M bool :=
  if iface =? AUDIO_CONTROL_INTERFACE then
    if entity =? AUDIO_FUNCTION_UNIT_ID then
      audio_volume_control req (Z.land (Z.shiftr wValue 8) 0xFF)
                           (Z.land wValue 0xFF) length
    else ret false
  else ret false.

(** *** The data stage of a control transfer *)

Definition run_callback (cb : usbcallback) : M unit :=
  match cb with
  | CB_NULL => ret tt
  | CB_notify_mute => notify_mute
  | CB_notify_volume => notify_volume
  end.

Definition clear_ep0 : M unit := modify (set_ep0 None).

(** Modelled from the spec: the data stage is run by the USB driver, whose
    code is not part of the demo.  A host-to-device stage stores the bytes
    received in the buffer given to [usbSetupTransfer] and then runs the
    completion callback ("on completion of the data stage, write into
    [mute[]]"). *)
Definition ep0_data_out (payload : list Z) : M unit :=
  let* t := gets (fun m => ep0 (usb m)) in
  match t with
  | Some (PTR_control_data, n, cb) =>
      if Z.of_nat (length payload) =? n then
        let* _ := store_control_data 0 payload in
        let* _ := clear_ep0 in
        run_callback cb
      else lift None
  | _ => lift None
  end.

(** Modelled from the spec: a device-to-host stage returns to the host the
    first [n] bytes of the buffer given to [usbSetupTransfer], then runs
    the completion callback. *)
Definition ep0_data_in : M (list Z) :=
  let* t := gets (fun m => ep0 (usb m)) in
  match t with
  | Some (p, n, cb) =>
      let* d := gets (deref p) in
      if decide (0 <= n <= Z.of_nat (length d)) then
        let* _ := clear_ep0 in
        let* _ := run_callback cb in
        ret (take (Z.to_nat n) d)
      else lift None
  | None => lift None
  end.

(** ** Initial state *)

Definition audioObjectInit (m : machine) : machine :=
  with_audio (mk_audio 0 [] false false false [false; false] [0; 0]) m.

(** The statics of main.c as the C start-up code leaves them, after
    [audioObjectInit (&audio)]. *)
Definition init_machine : machine :=
  audioObjectInit
    (mk_machine (mk_audio 0 [] false false false [false; false] [0; 0])
       (mk_sof 0 0 true 0 [0; 0; 0])
       (mk_i2s (repeat 0 (Z.to_nat (2 * AUDIO_BUFFER_SIZE))) None 0 false)
       (repeat 0 8) 0
       (mk_usb None None false None false)).

(** The sizes the arrays are declared with. *)
Record wf (m : machine) : Prop := mk_wf {
  wf_mute : length (mute (audio m)) = 2%nat;
  wf_volume : length (volume (audio m)) = 2%nat;
  wf_control_data : length (control_data m) = 8%nat;
  wf_feedback : length (sof_feedback_data (sof m)) = 3%nat;
  wf_dac : length (dac_buffer (i2s m)) = Z.to_nat (2 * AUDIO_BUFFER_SIZE)
}.

(** ** Starting and stopping playback *)

Definition AUDIO_PLAYBACK_ENDPOINT : Z := 0x01.
Definition AUDIO_STREAMING_INTERFACE : Z := 1.

Definition start_playback (m : machine) : machine :=
  if negb (playback (audio m)) then
    let m1 := with_audio (set_playback true (audio m)) m in
    let m2 := usbPrepareQueuedReceive AUDIO_MAX_PACKET_SIZE m1 in
    let m3 := usbPrepareTransmit PTR_NULL 0 m2 in
    let m4 := chEvtBroadcastFlagsI AUDIO_EVENT_PLAYBACK m3 in
    usbStartTransmitI (usbStartReceiveI m4)
  else m.

Definition stop_playback (m : machine) : machine :=
  if playback (audio m) then
    chEvtBroadcastFlagsI AUDIO_EVENT_PLAYBACK
      (with_audio (set_playback false (audio m)) m)
  else m.

(** ** SETUP requests *)

Section Requests.

(** The request-type masks and codes of the USB driver header, which is not
    part of the demo. *)
Variables USB_RTYPE_TYPE_MASK USB_RTYPE_RECIPIENT_MASK : Z.
Variables USB_RTYPE_TYPE_STD USB_RTYPE_TYPE_CLASS : Z.
Variables USB_RTYPE_RECIPIENT_INTERFACE USB_RTYPE_RECIPIENT_ENDPOINT : Z.
Variable USB_REQ_SET_INTERFACE : Z.

(** [audio_requests_hook (usbp)], given the eight bytes of [usbp->setup]. *)
Definition audio_requests_hook (setup : list Z) : M bool :=
  let* s0 := lift (arr_read setup 0) in
  if Z.land s0 (Z.lor USB_RTYPE_TYPE_MASK USB_RTYPE_RECIPIENT_MASK)
     =? Z.lor USB_RTYPE_TYPE_STD USB_RTYPE_RECIPIENT_INTERFACE
  then
    let* s1 := lift (arr_read setup 1) in
    if s1 =? USB_REQ_SET_INTERFACE then
      let* s5 := lift (arr_read setup 5) in
      let* s4 := lift (arr_read setup 4) in
      if Z.lor (Z.shiftl s5 8) s4 =? AUDIO_STREAMING_INTERFACE then
        let* s3 := lift (arr_read setup 3) in
        let* s2 := lift (arr_read setup 2) in
        let* _ :=
          if Z.lor (Z.shiftl s3 8) s2 =? 1
          then modify start_playback
          else modify stop_playback in
        let* _ := usbSetupTransfer PTR_NULL 0 CB_NULL in
        ret true
      else ret false
    else ret false
  else if Z.land s0 USB_RTYPE_TYPE_MASK =? USB_RTYPE_TYPE_CLASS then
    if Z.land s0 USB_RTYPE_RECIPIENT_MASK =? USB_RTYPE_RECIPIENT_INTERFACE then
      let* s4 := lift (arr_read setup 4) in
      let* s5 := lift (arr_read setup 5) in
      let* s1 := lift (arr_read setup 1) in
      let* s3 := lift (arr_read setup 3) in
      let* s2 := lift (arr_read setup 2) in
      let* s7 := lift (arr_read setup 7) in
      let* s6 := lift (arr_read setup 6) in
      audio_control s4 s5 s1 (Z.lor (Z.shiftl s3 8) s2)
                    (Z.lor (Z.shiftl s7 8) s6)
    else ret false
  else ret false.

(** The first byte of a SETUP packet that the hook takes for a class
    request to an interface. *)
Definition class_interface_request (s0 : Z) : Prop :=
  Z.land s0 (Z.lor USB_RTYPE_TYPE_MASK USB_RTYPE_RECIPIENT_MASK)
  <> Z.lor USB_RTYPE_TYPE_STD USB_RTYPE_RECIPIENT_INTERFACE
  /\ Z.land s0 USB_RTYPE_TYPE_MASK = USB_RTYPE_TYPE_CLASS
  /\ Z.land s0 USB_RTYPE_RECIPIENT_MASK = USB_RTYPE_RECIPIENT_INTERFACE.

End Requests.

(** ** USB driver events *)

(** The events the [switch] of [usb_event] names. *)
Inductive usbevent_t :=
| USB_EVENT_RESET
| USB_EVENT_ADDRESS
| USB_EVENT_CONFIGURED
| USB_EVENT_SUSPEND
| USB_EVENT_WAKEUP
| USB_EVENT_STALLED.

Inductive ep_mode_t := USB_EP_MODE_TYPE_ISOC.

(** The fields of [USBEndpointConfig] that [ep1config] sets to something
    other than a null pointer or a state buffer: the mode, the IN and OUT
    callbacks, the two maximum packet sizes and the ninth initialiser. *)
Record USBEndpointConfig := mk_epc {
  ep_mode : ep_mode_t;
  in_cb : machine -> machine;
  out_cb : machine -> machine;
  in_maxsize : Z;
  out_maxsize : Z;
  in_multiplier : Z
}.

Definition ep1config : USBEndpointConfig :=
  mk_epc USB_EP_MODE_TYPE_ISOC audio_feedback audio_received
         0x0004 AUDIO_MAX_PACKET_SIZE 1.

(** [usb_event (usbp, event)]; the second component is the configuration
    given to [usbInitEndpointI] for [AUDIO_PLAYBACK_ENDPOINT], when the
    handler calls it. *)
Definition usb_event (event : usbevent_t) (m : machine)
  : machine * option USBEndpointConfig :=
  let m1 := chEvtBroadcastFlagsI AUDIO_EVENT_USB_STATE m in
  match event with
  | USB_EVENT_RESET => (stop_playback m1, None)
  | USB_EVENT_ADDRESS => (m1, None)
  | USB_EVENT_CONFIGURED => (m1, Some ep1config)
  | USB_EVENT_SUSPEND => (m1, None)
  | USB_EVENT_WAKEUP => (m1, None)
  | USB_EVENT_STALLED => (m1, None)
  end.

(** ** The demo as a reactive system *)

(** What the interrupt handlers, the driver callbacks, the pump thread and
    the control thread can be asked to do. *)
Inductive event :=
| E_tim2 (value sr : Z)
| E_start_sof_capture
| E_stop_sof_capture
| E_feedback
| E_received
| E_i2s (off n : Z)
| E_pump
| E_setup (setup : list Z)
| E_data_out (payload : list Z)
| E_data_in
| E_usb (e : usbevent_t).

Section React.

Variable TIM_SR_TIF : Z.
Variables USB_RTYPE_TYPE_MASK USB_RTYPE_RECIPIENT_MASK : Z.
Variables USB_RTYPE_TYPE_STD USB_RTYPE_TYPE_CLASS : Z.
Variables USB_RTYPE_RECIPIENT_INTERFACE USB_RTYPE_RECIPIENT_ENDPOINT : Z.
Variable USB_REQ_SET_INTERFACE : Z.

(** The machine after an event, [None] when the code faults. *)
Definition react (e : event) (m : machine) : option machine :=
  match e with
  | E_tim2 value sr => Some (STM32_TIM2_HANDLER TIM_SR_TIF value sr m)
  | E_start_sof_capture => Some (start_sof_capture m)
  | E_stop_sof_capture => Some (stop_sof_capture m)
  | E_feedback => Some (audio_feedback m)
  | E_received => Some (audio_received m)
  | E_i2s off n => Some (i2s_callback off n m)
  | E_pump =>
      match Thread1 m with
      | Some (T_suspended m') => Some m'
      | Some (T_in_queue_read m') => Some m'
      | None => None
      end
  | E_setup setup =>
      option_map snd
        (audio_requests_hook USB_RTYPE_TYPE_MASK USB_RTYPE_RECIPIENT_MASK
           USB_RTYPE_TYPE_STD USB_RTYPE_TYPE_CLASS
           USB_RTYPE_RECIPIENT_INTERFACE USB_REQ_SET_INTERFACE setup m)
  | E_data_out payload => option_map snd (ep0_data_out payload m)
  | E_data_in => option_map snd (ep0_data_in m)
  | E_usb ev => Some (fst (usb_event ev m))
  end.

Fixpoint react_all (es : list event) (m : machine) : option machine :=
  match es with
  | [] => Some m
  | e :: es' =>
      match react e m with
      | Some m' => react_all es' m'
      | None => None
      end
  end.

End React.

(** What holds of the machine whatever happened: the arrays have their
    declared sizes, and the counters of the capture and the fill size are
    within the range of their types. *)
Definition machine_inv (m : machine) : Prop :=
  wf m
  /\ 0 <= sof_delta_count (sof m) <= 31
  /\ 0 <= sof_delta (sof m) < 2 ^ 32
  /\ 0 <= buffern (i2s m) < 2 ^ 32.

(** ** Notions the properties are stated with *)

Definition Zsum (l : list Z) : Z := fold_right Z.add 0 l.

(** The last [k] elements of a list. *)
Definition lastn {A} (k : nat) (l : list A) : list A := drop (length l - k) l.

(** The values the handler adds to [sof_delta] along a sequence of captured
    counter values, [last] being the value captured before them. *)
Fixpoint sof_deltas (last : Z) (values : list Z) : list Z :=
  match values with
  | [] => []
  | v :: vs => sof_increment last v :: sof_deltas v vs
  end.

(** A frame-boundary capture: a reading whose status has the trigger flag. *)
Definition frame_boundary (TIM_SR_TIF : Z) (c : Z * Z) : Prop :=
  Z.land (snd c) TIM_SR_TIF <> 0.

(** The state of the capture after the deltas [ds] were accumulated since
    the start, [lastv] being the last counter value captured. *)
Definition sof_inv (m : machine) (lastv : Z) (ds : list Z) : Prop :=
  sof_first (sof m) = false
  /\ sof_last_counter (sof m) = lastv
  /\ sof_delta_count (sof m) = Z.of_nat (length ds mod 32)
  /\ sof_delta (sof m) = u32 (Zsum (lastn (length ds mod 32) ds)).

(** [k] more captures cannot make the feedback valid. *)
Definition sof_quiet (m : machine) (k : nat) : Prop :=
  sof_feedback_valid (audio m) = false
  /\ (if sof_first (sof m) then sof_delta_count (sof m) = 0 /\ (k <= 32)%nat
      else sof_delta_count (sof m) + Z.of_nat k <= 31).

(** The wrap-corrected forward difference as the text means it: the ticks a
    32-bit counter made from [last] to [value], 0xF + 0xA + 1 = 26 from
    0xFFFFFFF0 to 0x0000000A.  It is stated here to be compared with
    [sof_increment], the value the handler adds. *)
Definition wrap_corrected_delta (last value : Z) : Z :=
  (value - last) mod 2 ^ 32.

(** The formula the text gives for it, taken literally. *)
Definition spec_formula_delta (last value : Z) : Z :=
  if last <=? value then value - last else (UINT32_MAX - last) + value.

Fixpoint wrap_corrected_deltas (last : Z) (values : list Z) : list Z :=
  match values with
  | [] => []
  | v :: vs => wrap_corrected_delta last v :: wrap_corrected_deltas v vs
  end.

Fixpoint spec_formula_deltas (last : Z) (values : list Z) : list Z :=
  match values with
  | [] => []
  | v :: vs => spec_formula_delta last v :: spec_formula_deltas v vs
  end.

(** How many of the values did not grow past the one before, so that the
    handler takes its wrap branch for them. *)
Fixpoint wrapped_readings (last : Z) (values : list Z) : Z :=
  match values with
  | [] => 0
  | v :: vs => (if last <? v then 0 else 1) + wrapped_readings v vs
  end.

(** Counter values that keep growing from [last]. *)
Fixpoint ascending (last : Z) (values : list Z) : bool :=
  match values with
  | [] => true
  | v :: vs => (last <? v) && ascending v vs
  end.

(** The quantities [machine_inv] speaks of. *)
Definition shape (m : machine) : nat * nat * nat * nat * nat * Z * Z * Z :=
  (length (mute (audio m)), length (volume (audio m)),
   length (control_data m), length (sof_feedback_data (sof m)),
   length (dac_buffer (i2s m)),
   sof_delta_count (sof m), sof_delta (sof m), buffern (i2s m)).

(** [Q] holds of every result of [c] run from [m]. *)
Definition M_post {A} (c : M A) (m : machine) (Q : A -> machine -> Prop)
  : Prop :=
  forall a m', c m = Some (a, m') -> Q a m'.

(** * Properties *)

(** ** Arithmetic of the feedback value *)

Lemma u32_range z : 0 <= u32 z < 2 ^ 32.
Proof. unfold u32. apply Z.mod_pos_bound. reflexivity. Qed.

Lemma u32_small z : 0 <= z < 2 ^ 32 -> u32 z = z.
Proof. intros H. unfold u32. now apply Z.mod_small. Qed.

Lemma u32_add_l x y : u32 (u32 x + y) = u32 (x + y).
Proof. unfold u32. apply Zplus_mod_idemp_l. Qed.

(** The 24-bit value the handler encodes only depends on the accumulated sum
    modulo 2^32, so the wrap-around of [sof_delta] is invisible in it. *)
Lemma f1014_u32 x :
  Z.land (u32 (Z.shiftl (u32 x) 1)) 0xFFFFFF = Z.land (Z.shiftl x 1) 0xFFFFFF.
Proof.
  change 0xFFFFFF with (Z.ones 24).
  rewrite !Z.land_ones by lia. rewrite !Z.shiftl_mul_pow2 by lia.
  unfold u32. change (2 ^ 1) with 2.
  change (2 ^ 32) with 4294967296. change (2 ^ 24) with 16777216.
  Z.to_euclidean_division_equations. lia.
Qed.

Lemma f1014_range x : 0 <= Z.land (Z.shiftl x 1) 0xFFFFFF < 2 ^ 24.
Proof.
  change 0xFFFFFF with (Z.ones 24). rewrite Z.land_ones by lia.
  apply Z.mod_pos_bound. reflexivity.
Qed.

Lemma byte_split f :
  0 <= f < 2 ^ 24 ->
  [u8 (Z.land f 0xFF); u8 (Z.land (Z.shiftr f 8) 0xFF);
   u8 (Z.land (Z.shiftr f 16) 0xFF)] = le_bytes 3 f.
Proof.
  intros Hf. cbn [le_bytes]. change 0xFF with (Z.ones 8).
  rewrite !Z.land_ones, !Z.shiftr_div_pow2 by lia. unfold u8.
  rewrite !Z.mod_mod by (now apply Z.pow_nonzero).
  rewrite Z.div_div by lia.
  reflexivity.
Qed.

Lemma sof_feedback_bytes_le x :
  sof_feedback_bytes (u32 x)
  = le_bytes 3 (Z.land (Z.shiftl x 1) 0xFFFFFF).
Proof.
  unfold sof_feedback_bytes. cbv zeta. rewrite f1014_u32.
  apply byte_split, f1014_range.
Qed.

Lemma sof_increment_range last value : 0 <= sof_increment last value < 2 ^ 32.
Proof. unfold sof_increment. destruct (last <? value); apply u32_range. Qed.

(** ** The capture handler along a sequence of frame boundaries *)

Lemma Zsum_app a b : Zsum (a ++ b) = Zsum a + Zsum b.
Proof. induction a as [|x a IH]; simpl; [reflexivity | rewrite IH; lia]. Qed.

Lemma lastn_snoc {A} (k : nat) (l : list A) (x : A) :
  lastn (S k) (l ++ [x]) = lastn k l ++ [x].
Proof.
  unfold lastn. rewrite length_app. simpl.
  replace (length l + 1 - S k)%nat with (length l - k)%nat by lia.
  apply drop_app_le. lia.
Qed.

Lemma lastn_0 {A} (l : list A) : lastn 0 l = [].
Proof. unfold lastn. rewrite Nat.sub_0_r. apply drop_all. Qed.

Lemma mod32_wrap n : (n mod 32 = 31 -> (n + 1) mod 32 = 0)%nat.
Proof.
  intros H. symmetry. apply (Nat.mod_unique (n + 1) 32 (n / 32 + 1)); [lia|].
  pose proof (Nat.div_mod_eq n 32). lia.
Qed.

Lemma mod32_succ n : (n mod 32 <> 31 -> (n + 1) mod 32 = n mod 32 + 1)%nat.
Proof.
  intros H. symmetry. apply (Nat.mod_unique (n + 1) 32 (n / 32)).
  - pose proof (Nat.mod_upper_bound n 32). lia.
  - pose proof (Nat.div_mod_eq n 32). lia.
Qed.

Lemma last_cons_default {A} (l : list A) : forall a d,
  List.last (a :: l) d = List.last l a.
Proof.
  induction l as [|b l IH]; intros a d; [reflexivity|].
  change (List.last (a :: b :: l) d) with (List.last (b :: l) d).
  rewrite (IH b d). symmetry. apply (IH b a).
Qed.

Lemma sof_deltas_snoc vs : forall last v,
  sof_deltas last (vs ++ [v])
  = sof_deltas last vs ++ [sof_increment (List.last vs last) v].
Proof.
  induction vs as [|w vs IH]; intros last v; [reflexivity|].
  cbn [app sof_deltas]. now rewrite IH, last_cons_default.
Qed.

Lemma sof_deltas_length vs : forall last, length (sof_deltas last vs) = length vs.
Proof. induction vs; intros; simpl; [reflexivity | now rewrite IHvs]. Qed.

Section Capture.

Variable TIM_SR_TIF : Z.

Local Abbreviation handler := (STM32_TIM2_HANDLER TIM_SR_TIF).
Local Abbreviation run := (run_TIM2 TIM_SR_TIF).

Lemma handler_no_flag value sr m : Z.land sr TIM_SR_TIF = 0 -> handler value sr m = m.
Proof. intros H. unfold STM32_TIM2_HANDLER. now rewrite H. Qed.

Lemma run_cons c caps m :
  run (c :: caps) m = run caps (handler (fst c) (snd c) m).
Proof. reflexivity. Qed.

Lemma run_snoc caps c m :
  run (caps ++ [c]) m = handler (fst c) (snd c) (run caps m).
Proof. unfold run_TIM2. now rewrite fold_left_app. Qed.

(** What the handler leaves when it runs on a frame boundary that is not
    the first one. *)
Lemma handler_window_end value sr m :
  Z.land sr TIM_SR_TIF <> 0 -> sof_first (sof m) = false ->
  sof_delta_count (sof m) = 31 ->
  sof (handler value sr m)
  = mk_sof value 0 false 0
      (sof_feedback_bytes
         (u32 (sof_delta (sof m) + sof_increment (sof_last_counter (sof m)) value)))
  /\ sof_feedback_valid (audio (handler value sr m)) = true.
Proof.
  intros Hf H1 Hc. unfold STM32_TIM2_HANDLER.
  apply Z.eqb_neq in Hf. rewrite Hf, H1, Hc. simpl. split; reflexivity.
Qed.

Lemma handler_window_inside value sr m :
  Z.land sr TIM_SR_TIF <> 0 -> sof_first (sof m) = false ->
  sof_delta_count (sof m) <> 31 ->
  sof (handler value sr m)
  = mk_sof value
      (u32 (sof_delta (sof m) + sof_increment (sof_last_counter (sof m)) value))
      false (sof_delta_count (sof m) + 1) (sof_feedback_data (sof m))
  /\ sof_feedback_valid (audio (handler value sr m))
     = sof_feedback_valid (audio m).
Proof.
  intros Hf H1 Hc. unfold STM32_TIM2_HANDLER.
  apply Z.eqb_neq in Hf. apply Z.eqb_neq in Hc. rewrite Hf, H1, Hc. simpl.
  split; reflexivity.
Qed.

Lemma handler_first value sr m :
  Z.land sr TIM_SR_TIF <> 0 -> sof_first (sof m) = true ->
  sof (handler value sr m)
  = mk_sof value (sof_delta (sof m)) false (sof_delta_count (sof m))
           (sof_feedback_data (sof m))
  /\ sof_feedback_valid (audio (handler value sr m))
     = sof_feedback_valid (audio m).
Proof.
  intros Hf H1. unfold STM32_TIM2_HANDLER.
  apply Z.eqb_neq in Hf. rewrite Hf, H1. simpl. split; reflexivity.
Qed.

(** [sof_delta_count] stays within 0..31. *)
Lemma sof_count_range value sr m :
  0 <= sof_delta_count (sof m) <= 31 ->
  0 <= sof_delta_count (sof (handler value sr m)) <= 31.
Proof.
  intros Hr. destruct (Z.eq_dec (Z.land sr TIM_SR_TIF) 0) as [E|E].
  - now rewrite handler_no_flag.
  - destruct (sof_first (sof m)) eqn:F.
    + destruct (handler_first value sr m E F) as [-> _]. exact Hr.
    + destruct (Z.eq_dec (sof_delta_count (sof m)) 31) as [C|C].
      * destruct (handler_window_end value sr m E F C) as [-> _]. simpl. lia.
      * destruct (handler_window_inside value sr m E F C) as [-> _]. simpl. lia.
Qed.

Lemma sof_inv_start c0 m :
  frame_boundary TIM_SR_TIF c0 ->
  sof_inv (handler (fst c0) (snd c0) (start_sof_capture m)) (fst c0) [].
Proof.
  intros Hf. destruct (handler_first (fst c0) (snd c0) (start_sof_capture m) Hf)
    as [Hs _]; [reflexivity|].
  unfold sof_inv. rewrite Hs. simpl. repeat split; reflexivity.
Qed.

Lemma sof_inv_step c m lastv ds :
  frame_boundary TIM_SR_TIF c -> sof_inv m lastv ds ->
  sof_inv (handler (fst c) (snd c) m) (fst c)
          (ds ++ [sof_increment lastv (fst c)]).
Proof.
  intros Hf (H1 & H2 & H3 & H4). unfold sof_inv.
  rewrite length_app. change (length [sof_increment lastv (fst c)]) with 1%nat.
  destruct (Nat.eq_dec (length ds mod 32)%nat 31%nat) as [E|E].
  - destruct (handler_window_end (fst c) (snd c) m Hf H1) as [Hs _].
    { rewrite H3, E. reflexivity. }
    rewrite Hs. cbn [sof_first sof_last_counter sof_delta_count sof_delta].
    rewrite (mod32_wrap _ E), lastn_0.
    repeat split; reflexivity.
  - destruct (handler_window_inside (fst c) (snd c) m Hf H1) as [Hs _].
    { rewrite H3. lia. }
    rewrite Hs. cbn [sof_first sof_last_counter sof_delta_count sof_delta].
    rewrite (mod32_succ _ E).
    repeat split; [lia|].
    rewrite Nat.add_1_r, lastn_snoc, Zsum_app. cbn [Zsum fold_right].
    rewrite H4, H2, u32_add_l. f_equal. lia.
Qed.

Lemma sof_inv_run caps : forall m lastv ds,
  Forall (frame_boundary TIM_SR_TIF) caps -> sof_inv m lastv ds ->
  sof_inv (run caps m) (List.last (map fst caps) lastv)
          (ds ++ sof_deltas lastv (map fst caps)).
Proof.
  induction caps as [|c caps IH]; intros m lastv ds Hall Hinv.
  - simpl. now rewrite app_nil_r.
  - inversion Hall as [|? ? Hc Hrest]; subst.
    rewrite run_cons. cbn [map sof_deltas].
    replace (ds ++ sof_increment lastv (fst c) :: sof_deltas (fst c) (map fst caps))
      with ((ds ++ [sof_increment lastv (fst c)]) ++ sof_deltas (fst c) (map fst caps))
      by (now rewrite <- app_assoc).
    rewrite last_cons_default.
    apply IH; [assumption | now apply sof_inv_step].
Qed.

End Capture.

Lemma sof_inv_after_start TIM_SR_TIF c0 rest m :
  frame_boundary TIM_SR_TIF c0 -> Forall (frame_boundary TIM_SR_TIF) rest ->
  sof_inv (run_TIM2 TIM_SR_TIF (c0 :: rest) (start_sof_capture m))
          (List.last (map fst rest) (fst c0))
          (sof_deltas (fst c0) (map fst rest)).
Proof.
  intros H0 Hrest. rewrite run_cons.
  apply (sof_inv_run TIM_SR_TIF rest _ (fst c0) []); [assumption|].
  now apply sof_inv_start.
Qed.

(** The window logic of the handler, over the deltas it adds (the values
    of [sof_increment]).  Take any frame-boundary captures after
    [start_sof_capture]: a
    first one [c0], then [rest], then one more, [c].  [c] finds
    [sof_delta_count] at 31 exactly when the delta it adds completes a group
    of 32.  In that case it sets [sof_feedback_data] to the three
    little-endian bytes of ((sum of the last 32 deltas) << 1) & 0xFFFFFF,
    resets [sof_delta] and [sof_delta_count] to 0 and sets
    [sof_feedback_valid]; in the other case it increments
    [sof_delta_count] and leaves [sof_feedback_data] as it was. *)
Theorem sof_feedback_every_32_deltas TIM_SR_TIF c0 rest c m :
  frame_boundary TIM_SR_TIF c0 ->
  Forall (frame_boundary TIM_SR_TIF) rest ->
  frame_boundary TIM_SR_TIF c ->
  let before := run_TIM2 TIM_SR_TIF (c0 :: rest) (start_sof_capture m) in
  let after := STM32_TIM2_HANDLER TIM_SR_TIF (fst c) (snd c) before in
  let ds := sof_deltas (fst c0) (map fst (rest ++ [c])) in
  after = run_TIM2 TIM_SR_TIF (c0 :: rest ++ [c]) (start_sof_capture m)
  /\ (sof_delta_count (sof before) = 31 <-> (length ds mod 32 = 0)%nat)
  /\ (sof_delta_count (sof before) = 31 ->
      sof_feedback_data (sof after)
      = le_bytes 3 (Z.land (Z.shiftl (Zsum (lastn 32 ds)) 1) 0xFFFFFF)
      /\ sof_delta (sof after) = 0
      /\ sof_delta_count (sof after) = 0
      /\ sof_feedback_valid (audio after) = true)
  /\ (sof_delta_count (sof before) <> 31 ->
      sof_delta_count (sof after) = sof_delta_count (sof before) + 1
      /\ sof_feedback_data (sof after) = sof_feedback_data (sof before)).
Proof.
  intros H0 Hrest Hc before after ds.
  destruct (sof_inv_after_start TIM_SR_TIF c0 rest m H0 Hrest)
    as (I1 & I2 & I3 & I4).
  fold before in I1, I2, I3, I4.
  set (dsp := sof_deltas (fst c0) (map fst rest)) in *.
  set (inc := sof_increment (List.last (map fst rest) (fst c0)) (fst c)).
  assert (Hds : ds = dsp ++ [inc]).
  { unfold ds, dsp, inc. rewrite map_app. apply sof_deltas_snoc. }
  assert (Hlen : length ds = (length dsp + 1)%nat).
  { rewrite Hds, length_app. reflexivity. }
  split; [|split; [|split]].
  - unfold after, before.
    change (c0 :: rest ++ [c]) with ((c0 :: rest) ++ [c]).
    now rewrite run_snoc.
  - rewrite I3, Hlen. split.
    + intros E. apply mod32_wrap. lia.
    + intros E.
      destruct (Nat.eq_dec (length dsp mod 32)%nat 31%nat) as [E'|E'];
        [rewrite E'; reflexivity|].
      rewrite (mod32_succ _ E') in E. lia.
  - intros E.
    destruct (handler_window_end TIM_SR_TIF (fst c) (snd c) before Hc I1 E)
      as [Hs Hv].
    fold after in Hs, Hv. rewrite Hs, Hv.
    cbn [sof_feedback_data sof_delta sof_delta_count].
    repeat split.
    assert (E' : (length dsp mod 32 = 31)%nat) by lia.
    rewrite I4, I2, E', u32_add_l, sof_feedback_bytes_le.
    fold inc. rewrite Hds, (lastn_snoc 31), Zsum_app.
    cbn [Zsum fold_right]. do 3 f_equal. lia.
  - intros E.
    destruct (handler_window_inside TIM_SR_TIF (fst c) (snd c) before Hc I1 E)
      as [Hs _].
    fold after in Hs. rewrite Hs. split; reflexivity.
Qed.

(** A run of 33 frame boundaries, 12288 master-clock ticks apart. *)
Lemma sof_feedback_every_32_deltas_witness :
  let rest := map (fun i => (1000 + Z.of_nat i * 12288, 0x40)) (seq 1 31) in
  let after :=
    run_TIM2 0x40 ((1000, 0x40) :: rest ++ [(1000 + 32 * 12288, 0x40)])
             (start_sof_capture init_machine) in
  sof_feedback_data (sof after) = [0; 0; 12]
  /\ sof_delta (sof after) = 0
  /\ sof_delta_count (sof after) = 0
  /\ sof_feedback_valid (audio after) = true.
Proof.
  intros rest after.
  assert (H0 : frame_boundary 0x40 (1000, 0x40)) by (vm_compute; discriminate).
  assert (Hc : frame_boundary 0x40 (1000 + 32 * 12288, 0x40))
    by (vm_compute; discriminate).
  assert (Hrest : Forall (frame_boundary 0x40) rest).
  { apply List.Forall_forall. intros x Hx. apply in_map_iff in Hx.
    destruct Hx as [i [<- _]]. vm_compute. discriminate. }
  destruct (sof_feedback_every_32_deltas 0x40 (1000, 0x40) rest
              (1000 + 32 * 12288, 0x40) init_machine H0 Hrest Hc)
    as (Hrun & _ & Hend & _).
  unfold after. rewrite <- Hrun.
  destruct (Hend eq_refl) as (Hf & Hd & Hn & Hv).
  repeat split; assumption.
Defined.

(** C1.  The feedback does depend on where the counter wraps.  Over 33
    frame boundaries 12288 ticks apart, the first at 0xFFFFD000 so that the
    counter wraps once, the handler encodes 2 * (32 * 12288 - 1), the bytes
    [0xFE; 0xFF; 0x0B], where the sum of the 32 wrap-corrected deltas gives
    2 * (32 * 12288), the bytes [0x00; 0x00; 0x0C], which the handler does
    write for the same clock when the counter does not wrap.  Over 33 equal
    readings the handler encodes [0xC0; 0xFF; 0xFF] where the deltas are all
    0, by the text's formula too. *)
Theorem sof_feedback_depends_on_wrap :
  let wrapping :=
    map (fun i => u32 (0xFFFFD000 + Z.of_nat i * 12288)) (seq 1 32) in
  let climbing := map (fun i => 0x1000 + Z.of_nat i * 12288) (seq 1 32) in
  let still := repeat 0x1000 32 in
  let feedback first values :=
    sof_feedback_data
      (sof (run_TIM2 0x40 (map (fun v => (v, 0x40)) (first :: values))
                     (start_sof_capture init_machine))) in
  let claimed deltas :=
    le_bytes 3 (Z.land (Z.shiftl (Zsum deltas) 1) 0xFFFFFF) in
  wrap_corrected_deltas 0xFFFFD000 wrapping = repeat 12288 32
  /\ wrap_corrected_deltas 0x1000 climbing = repeat 12288 32
  /\ claimed (wrap_corrected_deltas 0xFFFFD000 wrapping) = [0x00; 0x00; 0x0C]
  /\ feedback 0x1000 climbing = [0x00; 0x00; 0x0C]
  /\ feedback 0xFFFFD000 wrapping = [0xFE; 0xFF; 0x0B]
  /\ claimed (wrap_corrected_deltas 0x1000 still) = [0; 0; 0]
  /\ claimed (spec_formula_deltas 0x1000 still) = [0; 0; 0]
  /\ feedback 0x1000 still = [0xC0; 0xFF; 0xFF].
Proof. repeat split; vm_compute; reflexivity. Qed.

(** C2.  The value the handler adds for a counter that wrapped is one less
    than the forward difference modulo 2^32: 25 for [last = 0xFFFFFFF0] and
    [value = 0xA], and 0xFFFFFFFF when the counter did not move. *)
Theorem sof_increment_wrap_short_by_one :
  sof_increment 0xFFFFFFF0 0x0000000A = 25
  /\ sof_delta (sof (run_TIM2 0x40 [(0xFFFFFFF0, 0x40); (0x0000000A, 0x40)]
                              (start_sof_capture init_machine))) = 25
  /\ sof_increment 5 5 = 0xFFFFFFFF
  /\ forall last value,
       sof_increment last value
       = if last <? value then u32 (value - last) else u32 (value - last - 1).
Proof.
  repeat split; try reflexivity.
  intros last value. unfold sof_increment.
  destruct (last <? value); [reflexivity|].
  rewrite u32_add_l. unfold u32, UINT32_MAX.
  replace (0xFFFFFFFF - last + value) with (value - last - 1 + 1 * 2 ^ 32) by lia.
  apply Z_mod_plus_full.
Qed.

(** ** The feedback endpoint *)

(** C4.  The feedback callback leaves everything as it is when [playback]
    is false.  When [playback] is true it prepares and starts a
    transmission: of the 3 bytes of [sof_feedback_data] when
    [sof_feedback_valid] is true, of no byte from a null buffer when it is
    false. *)
Theorem audio_feedback_arms m :
  length (sof_feedback_data (sof m)) = 3%nat ->
  (playback (audio m) = false -> audio_feedback m = m)
  /\ (playback (audio m) = true -> sof_feedback_valid (audio m) = true ->
      ep1_tx (usb (audio_feedback m)) = Some (PTR_sof_feedback_data, 3)
      /\ ep1_transmitting (usb (audio_feedback m)) = true
      /\ ep1_armed (audio_feedback m) = Some (sof_feedback_data (sof m)))
  /\ (playback (audio m) = true -> sof_feedback_valid (audio m) = false ->
      ep1_tx (usb (audio_feedback m)) = Some (PTR_NULL, 0)
      /\ ep1_transmitting (usb (audio_feedback m)) = true
      /\ ep1_armed (audio_feedback m) = Some []).
Proof.
  intros Hlen. unfold audio_feedback. split; [|split].
  - intros Hp. now rewrite Hp.
  - intros Hp Hv. rewrite Hp, Hv. repeat split.
    unfold ep1_armed. cbn. change (Z.to_nat 3) with 3%nat.
    rewrite <- Hlen. now rewrite firstn_all.
  - intros Hp Hv. rewrite Hp, Hv. repeat split.
Qed.

Lemma audio_feedback_arms_witness :
  let stopped := init_machine in
  let waiting := with_audio (set_playback true (audio init_machine)) init_machine in
  let measured :=
    with_sof (mk_sof 0 0 false 0 [0; 0; 12])
      (with_audio (set_sof_feedback_valid true (audio waiting)) waiting) in
  audio_feedback stopped = stopped
  /\ ep1_armed (audio_feedback waiting) = Some []
  /\ ep1_armed (audio_feedback measured) = Some [0; 0; 12].
Proof.
  intros stopped waiting measured.
  split; [|split].
  - apply (audio_feedback_arms stopped); reflexivity.
  - apply (audio_feedback_arms waiting); reflexivity.
  - apply (audio_feedback_arms measured); reflexivity.
Defined.

(** ** Restart of the capture *)

Lemma sof_quiet_step TIM_SR_TIF value sr m k :
  sof_quiet m (S k) -> sof_quiet (STM32_TIM2_HANDLER TIM_SR_TIF value sr m) k.
Proof.
  intros [Hv Hq]. unfold sof_quiet.
  destruct (Z.eq_dec (Z.land sr TIM_SR_TIF) 0) as [E|E].
  - rewrite handler_no_flag by assumption. split; [assumption|].
    destruct (sof_first (sof m)); lia.
  - destruct (sof_first (sof m)) eqn:F.
    + destruct (handler_first TIM_SR_TIF value sr m E F) as [Hs Hv'].
      rewrite Hs, Hv'. cbn [sof_first sof_delta_count]. split; [assumption|lia].
    + assert (Hc : sof_delta_count (sof m) <> 31) by lia.
      destruct (handler_window_inside TIM_SR_TIF value sr m E F Hc) as [Hs Hv'].
      rewrite Hs, Hv'. cbn [sof_first sof_delta_count]. split; [assumption|lia].
Qed.

Lemma sof_quiet_run TIM_SR_TIF caps : forall m k,
  sof_quiet m k -> (length caps <= k)%nat ->
  sof_feedback_valid (audio (run_TIM2 TIM_SR_TIF caps m)) = false.
Proof.
  induction caps as [|c caps IH]; intros m k Hq Hlen.
  - apply Hq.
  - rewrite run_cons. destruct k as [|k]; [simpl in Hlen; lia|].
    apply (IH _ k); [now apply sof_quiet_step | simpl in Hlen; lia].
Qed.

Lemma handler_playback TIM_SR_TIF value sr m :
  playback (audio (STM32_TIM2_HANDLER TIM_SR_TIF value sr m)) = playback (audio m).
Proof.
  unfold STM32_TIM2_HANDLER.
  destruct (Z.land sr TIM_SR_TIF =? 0); [reflexivity|].
  destruct (sof_first (sof m)); [reflexivity|].
  destruct (sof_delta_count (sof m) =? 31); reflexivity.
Qed.

(** C6.  [start_sof_capture] resets the four capture variables and clears
    [sof_feedback_valid]; [stop_sof_capture] clears [sof_feedback_valid].
    After a stop followed by a start, [sof_feedback_valid] is false
    after any 32 or fewer runs of the handler, and the feedback callback
    then arms a transmission of no byte; the handler run on 33 frame
    boundaries (32 complete frames) sets it. *)
Theorem restart_clears_feedback TIM_SR_TIF m caps :
  (length caps <= 32)%nat ->
  let restarted := start_sof_capture (stop_sof_capture m) in
  let later := run_TIM2 TIM_SR_TIF caps restarted in
  sof (start_sof_capture m) = mk_sof 0 0 true 0 (sof_feedback_data (sof m))
  /\ sof_feedback_valid (audio (start_sof_capture m)) = false
  /\ sof_feedback_valid (audio (stop_sof_capture m)) = false
  /\ sof restarted = mk_sof 0 0 true 0 (sof_feedback_data (sof m))
  /\ sof_feedback_valid (audio later) = false
  /\ (playback (audio later) = true ->
      ep1_tx (usb (audio_feedback later)) = Some (PTR_NULL, 0)
      /\ ep1_armed (audio_feedback later) = Some [])
  /\ (forall c0 rest,
        frame_boundary TIM_SR_TIF c0 ->
        Forall (frame_boundary TIM_SR_TIF) rest -> length rest = 32%nat ->
        sof_feedback_valid
          (audio (run_TIM2 TIM_SR_TIF (c0 :: rest) restarted)) = true).
Proof.
  intros Hlen restarted later.
  assert (Hq : sof_feedback_valid (audio later) = false).
  { apply (sof_quiet_run TIM_SR_TIF caps restarted 32); [|assumption].
    split; [reflexivity|]. cbn. split; [reflexivity | lia]. }
  repeat split; try reflexivity; try assumption.
  - unfold audio_feedback. rewrite H, Hq. reflexivity.
  - unfold audio_feedback. rewrite H, Hq. reflexivity.
  - intros c0 rest H0 Hrest Hn.
    destruct (exists_last (l := rest)) as (front & c & ->);
      [intros ->; discriminate|].
    apply Forall_app in Hrest. destruct Hrest as [Hfront Hc].
    inversion Hc as [|? ? Hc' _]; subst.
    change (c0 :: front ++ [c]) with ((c0 :: front) ++ [c]).
    rewrite run_snoc.
    destruct (sof_inv_after_start TIM_SR_TIF c0 front (stop_sof_capture m)
                H0 Hfront) as (I1 & _ & I3 & _).
    apply (handler_window_end TIM_SR_TIF (fst c) (snd c) _ Hc' I1).
    rewrite I3, sof_deltas_length, length_map.
    rewrite length_app in Hn. simpl in Hn.
    replace (length front) with 31%nat by lia. reflexivity.
Qed.

Lemma restart_clears_feedback_witness :
  let playing :=
    with_audio (mk_audio 0 [] false true true [false; false] [0; 0])
               init_machine in
  let later :=
    run_TIM2 0x40 (map (fun i => (Z.of_nat i * 12288, 0x40)) (seq 0 32))
             (start_sof_capture (stop_sof_capture playing)) in
  sof_feedback_valid (audio later) = false
  /\ ep1_armed (audio_feedback later) = Some [].
Proof.
  intros playing later.
  destruct (restart_clears_feedback 0x40 playing
              (map (fun i => (Z.of_nat i * 12288, 0x40)) (seq 0 32)))
    as (_ & _ & _ & _ & Hv & Hfb & _).
  - rewrite length_map, length_seq. lia.
  - split; [exact Hv|]. apply Hfb. reflexivity.
Defined.

(** ** Guarded accesses and [memcpy] *)

Lemma arr_read_is_Some {A} (l : list A) i :
  is_Some (arr_read l i) <-> 0 <= i < Z.of_nat (length l).
Proof.
  unfold arr_read. destruct (decide (0 <= i)) as [H|H].
  - rewrite lookup_lt_is_Some. lia.
  - split; [intros [x Hx]; discriminate | lia].
Qed.

Lemma arr_write_length {A} (l l' : list A) i v :
  arr_write l i v = Some l' -> length l' = length l.
Proof.
  unfold arr_write. destruct (decide _); [|discriminate].
  intros [= <-]. apply length_insert.
Qed.

Lemma memcpy_length src : forall dst off dst',
  memcpy dst off src = Some dst' -> length dst' = length dst.
Proof.
  induction src as [|b src IH]; intros dst off dst'; simpl.
  - now intros [= <-].
  - destruct (arr_write dst off b) as [d1|] eqn:E; [|discriminate].
    intros H. rewrite (IH _ _ _ H). eapply arr_write_length, E.
Qed.

(** Inside the destination, [memcpy] replaces the bytes at [off]. *)
Lemma memcpy_inside src : forall dst off,
  0 <= off -> off + Z.of_nat (length src) <= Z.of_nat (length dst) ->
  memcpy dst off src
  = Some (take (Z.to_nat off) dst ++ src
            ++ drop (Z.to_nat off + length src) dst).
Proof.
  induction src as [|b src IH]; intros dst off H0 Hle.
  - simpl. rewrite Nat.add_0_r. now rewrite take_drop.
  - cbn [memcpy length] in *. unfold arr_write.
    destruct (decide (0 <= off < Z.of_nat (length dst))) as [Hin|Hout]; [|lia].
    rewrite IH by (rewrite ?length_insert; lia).
    f_equal. replace (Z.to_nat (off + 1)) with (S (Z.to_nat off)) by lia.
    rewrite (take_S_r _ _ b)
      by (apply list_lookup_insert_eq; lia).
    rewrite take_insert_ge by lia.
    rewrite drop_insert_lt by lia.
    rewrite <- app_assoc. cbn [app].
    now rewrite Nat.add_succ_comm.
Qed.

(** Past the end of the destination, [memcpy] faults. *)
Lemma memcpy_outside src : forall dst off,
  src <> [] -> Z.of_nat (length dst) < off + Z.of_nat (length src) ->
  memcpy dst off src = None.
Proof.
  induction src as [|b src IH]; intros dst off Hne Hgt; [congruence|].
  cbn [memcpy length] in *. unfold arr_write.
  destruct (decide (0 <= off < Z.of_nat (length dst))) as [Hin|Hout];
    [|reflexivity].
  destruct src as [|b' src']; [simpl in Hgt; lia|].
  apply IH; [discriminate|]. rewrite length_insert. lia.
Qed.

(** ** The pump *)

(** C5.  After the I2S callback recorded the half to fill ([off] samples
    into the buffer, [n] samples long), a turn of the pump thread with fewer
    than [buffern] bytes queued copies nothing: buffer and queue are as
    before.  With at least [buffern] bytes queued it moves exactly the first
    [buffern] bytes of the queue to the recorded place in the buffer; the
    read is made with an immediate timeout, and the thread goes back to its
    suspension point without waiting in the queue. *)
Theorem pump_copies_or_skips m0 off n :
  let m := i2s_callback off n m0 in
  let q := audio_queue (audio m0) in
  let buf := dac_buffer (i2s m0) in
  let k := Z.to_nat (u32 (n * 2)) in
  bufferp (i2s m) = Some (2 * off)
  /\ buffern (i2s m) = u32 (n * 2)
  /\ (Z.of_nat (length q) < u32 (n * 2) ->
      exists m', Thread1 m = Some (T_suspended m')
                 /\ dac_buffer (i2s m') = buf
                 /\ audio_queue (audio m') = q)
  /\ (u32 (n * 2) <= Z.of_nat (length q) ->
      0 <= off -> 2 * off + u32 (n * 2) <= Z.of_nat (length buf) ->
      chIQReadTimeout q (u32 (n * 2)) TIME_IMMEDIATE
      = IQ_returned (take k q) (drop k q)
      /\ exists m', Thread1 m = Some (T_suspended m')
                    /\ audio_queue (audio m') = drop k q
                    /\ dac_buffer (i2s m')
                       = take (Z.to_nat (2 * off)) buf ++ take k q
                           ++ drop (Z.to_nat (2 * off) + k) buf).
Proof.
  intros m q buf k.
  assert (Hq : audio_queue (audio m) = q).
  { unfold m, i2s_callback, chThdResumeI. cbn.
    destruct (pump (audio m0)); reflexivity. }
  assert (Hb : i2s m = mk_i2s buf (Some (2 * off)) (u32 (n * 2))
                         (pump_ready (i2s m)) ).
  { unfold m, i2s_callback, chThdResumeI. cbn.
    destruct (pump (audio m0)); reflexivity. }
  pose proof (u32_range (n * 2)) as Hr.
  split; [now rewrite Hb|]. split; [now rewrite Hb|]. split.
  - intros Hlt. unfold Thread1. rewrite Hq, Hb. cbn [buffern].
    unfold chIQGetFullI.
    destruct (u32 (n * 2) <=? Z.of_nat (length q)) eqn:E;
      [apply Z.leb_le in E; lia|].
    eexists. split; [reflexivity|]. cbn. rewrite Hq, Hb. split; reflexivity.
  - intros Hge Hoff Hfit.
    assert (Hread : chIQReadTimeout q (u32 (n * 2)) TIME_IMMEDIATE
                    = IQ_returned (take k q) (drop k q)).
    { unfold chIQReadTimeout. fold k.
      destruct (decide (k <= length q)%nat); [reflexivity | lia]. }
    split; [exact Hread|].
    unfold Thread1. rewrite Hq, Hb. cbn [buffern bufferp dac_buffer].
    unfold chIQGetFullI.
    destruct (u32 (n * 2) <=? Z.of_nat (length q)) eqn:E;
      [|apply Z.leb_gt in E; lia].
    rewrite Hread. unfold write_dac.
    rewrite memcpy_inside by (rewrite ?length_take; lia).
    eexists. split; [reflexivity|]. cbn.
    split; [reflexivity|]. rewrite length_take.
    replace (k `min` length q)%nat with k by lia. reflexivity.
Qed.

Lemma pump_copies_or_skips_witness :
  let buf := [0; 0; 0; 0; 0; 0; 0; 0] in
  let with_queue q :=
    with_audio (mk_audio 0 q true true false [false; false] [0; 0])
      (with_i2s (mk_i2s buf None 0 false) init_machine) in
  (exists m', Thread1 (i2s_callback 2 2 (with_queue [1; 2; 3])) = Some (T_suspended m')
              /\ dac_buffer (i2s m') = buf
              /\ audio_queue (audio m') = [1; 2; 3])
  /\ (exists m', Thread1 (i2s_callback 2 2 (with_queue [1; 2; 3; 4; 5]))
                 = Some (T_suspended m')
                 /\ audio_queue (audio m') = [5]
                 /\ dac_buffer (i2s m') = [0; 0; 0; 0; 1; 2; 3; 4]).
Proof.
  intros buf with_queue. split.
  - apply (pump_copies_or_skips (with_queue [1; 2; 3]) 2 2). vm_compute. reflexivity.
  - apply (pump_copies_or_skips (with_queue [1; 2; 3; 4; 5]) 2 2);
      vm_compute; congruence.
Defined.

(** ** Control requests *)

Lemma length_2_inv {A} (l : list A) :
  length l = 2%nat -> exists a b, l = [a; b].
Proof.
  destruct l as [|a [|b [|c l]]]; try discriminate. intros _. now exists a, b.
Qed.

Lemma length_8_inv {A} (l : list A) :
  length l = 8%nat ->
  exists a b c d e f g h, l = [a; b; c; d; e; f; g; h].
Proof.
  destruct l as [|a [|b [|c [|d [|e [|f [|g [|h [|i l]]]]]]]]];
    try discriminate.
  intros _. now exists a, b, c, d, e, f, g, h.
Qed.

Lemma arr_read_2 {A} (a b : A) i :
  arr_read [a; b] i
  = if i =? 0 then Some a else if i =? 1 then Some b else None.
Proof.
  unfold arr_read. destruct (decide (0 <= i)) as [H|H].
  - destruct (Z.eqb_spec i 0) as [->|H0]; [reflexivity|].
    destruct (Z.eqb_spec i 1) as [->|H1]; [reflexivity|].
    apply lookup_ge_None. simpl. lia.
  - destruct (Z.eqb_spec i 0); [lia|]. destruct (Z.eqb_spec i 1); [lia|].
    reflexivity.
Qed.

Lemma arr_write_2 {A} (a b v : A) i :
  arr_write [a; b] i v
  = if i =? 0 then Some [v; b] else if i =? 1 then Some [a; v] else None.
Proof.
  unfold arr_write. cbn [length].
  destruct (decide (0 <= i < Z.of_nat 2)) as [H|H].
  - destruct (Z.eqb_spec i 0) as [->|H0]; [reflexivity|].
    destruct (Z.eqb_spec i 1) as [->|H1]; [reflexivity|]. lia.
  - destruct (Z.eqb_spec i 0); [lia|]. destruct (Z.eqb_spec i 1); [lia|].
    reflexivity.
Qed.

(** The requests that are not in the table and reach no data: an unknown
    request code, or a control selector that is neither mute nor volume. *)
Lemma audio_volume_control_unknown_ctrl req ctrl channel length m :
  ctrl <> UAC_FU_MUTE_CONTROL -> ctrl <> UAC_FU_VOLUME_CONTROL ->
  audio_volume_control req ctrl channel length m = Some (false, m).
Proof.
  intros Hm Hv. apply Z.eqb_neq in Hm, Hv.
  unfold audio_volume_control, case_SET_MAX_MIN_RES, case_GET_MAX,
    case_GET_MIN, case_GET_RES, case_GET_CUR, case_SET_CUR, case_default.
  rewrite Hm, Hv.
  repeat match goal with |- context [if ?b then _ else _] => destruct b end;
    reflexivity.
Qed.

Lemma audio_volume_control_unknown_req req ctrl channel length m :
  ~ In req [UAC_REQ_SET_CUR; UAC_REQ_SET_MIN; UAC_REQ_SET_MAX; UAC_REQ_SET_RES;
            UAC_REQ_GET_CUR; UAC_REQ_GET_MIN; UAC_REQ_GET_MAX; UAC_REQ_GET_RES] ->
  audio_volume_control req ctrl channel length m = Some (false, m).
Proof.
  intros H. unfold audio_volume_control.
  repeat match goal with
         | |- context [?x =? ?y] =>
             destruct (Z.eqb_spec x y);
             [exfalso; apply H; subst; simpl; tauto|]
         end.
  reflexivity.
Qed.

(** C3.  A request for the mute control that the table does not list is
    not refused: the cases of SET_MAX, SET_MIN, SET_RES, GET_MAX, GET_MIN and
    GET_RES fall through to the case of GET_CUR, which serves it.  SET_MAX
    of the mute of channel 1 (wValue 0x0101) returns true, overwrites
    [control_data[0]] with that channel's mute state and sets up a data
    stage. *)
Theorem mute_requests_outside_table_fall_through :
  (forall channel length m,
     let served := audio_volume_control UAC_REQ_GET_CUR UAC_FU_MUTE_CONTROL
                                        channel length m in
     audio_volume_control UAC_REQ_SET_MAX UAC_FU_MUTE_CONTROL channel length m
     = served
     /\ audio_volume_control UAC_REQ_SET_MIN UAC_FU_MUTE_CONTROL channel length m
        = served
     /\ audio_volume_control UAC_REQ_SET_RES UAC_FU_MUTE_CONTROL channel length m
        = served
     /\ audio_volume_control UAC_REQ_GET_MAX UAC_FU_MUTE_CONTROL channel length m
        = served
     /\ audio_volume_control UAC_REQ_GET_MIN UAC_FU_MUTE_CONTROL channel length m
        = served
     /\ audio_volume_control UAC_REQ_GET_RES UAC_FU_MUTE_CONTROL channel length m
        = served)
  /\ let muted :=
       with_control_data [7; 7; 7; 7; 7; 7; 7; 7]
         (with_audio (set_mute [true; false] (audio init_machine)) init_machine) in
     let served :=
       Some (true,
             set_ep0 (Some (PTR_control_data, 1, CB_NULL))
               (with_control_data [1; 7; 7; 7; 7; 7; 7; 7] muted)) in
     audio_volume_control UAC_REQ_SET_MAX UAC_FU_MUTE_CONTROL 1 1 muted = served
     /\ audio_control AUDIO_CONTROL_INTERFACE AUDIO_FUNCTION_UNIT_ID
                       UAC_REQ_SET_MAX 0x0101 1 muted = served.
Proof.
  split; [|split; reflexivity].
  intros channel length m. repeat split.
Qed.

Ltac wf_machine m H :=
  let H1 := fresh in let H2 := fresh in let H3 := fresh in
  destruct H as [H1 H2 H3 _ _];
  destruct m as [[ev q pm pb fv mu vo] so ii cd cc us];
  cbn [audio mute volume control_data] in H1, H2, H3;
  apply length_2_inv in H1; destruct H1 as (? & ? & ->);
  apply length_2_inv in H2; destruct H2 as (? & ? & ->);
  apply length_8_inv in H3;
  destruct H3 as (? & ? & ? & ? & ? & ? & ? & ? & ->).

Lemma init_machine_wf : wf init_machine.
Proof. split; reflexivity. Qed.






(** The single-channel forms, with the monad unfolded. *)
Lemma notify_mute_single m :
  control_channel m <> 0xff ->
  notify_mute m
  = match arr_read (control_data m) 0 with
    | Some b0 =>
        match arr_write (mute (audio m)) (control_channel m - 1) (bool_of_u8 b0) with
        | Some t =>
            Some (tt, chEvtBroadcastFlagsI AUDIO_EVENT_MUTE
                        (with_audio (set_mute t (audio m)) m))
        | None => None
        end
    | None => None
    end.
Proof.
  intros H. apply Z.eqb_neq in H.
  unfold notify_mute, load_control_data, bind, gets, lift, modify.
  rewrite H. destruct (arr_read (control_data m) 0); [|reflexivity].
  destruct (arr_write _ _ _); reflexivity.
Qed.

Lemma notify_volume_single m :
  control_channel m <> 0xff ->
  notify_volume m
  = match arr_read (control_data m) 0, arr_read (control_data m) 1 with
    | Some b0, Some b1 =>
        match arr_write (volume (audio m)) (control_channel m - 1)
                        (int16_of_bytes b0 b1) with
        | Some v =>
            Some (tt, chEvtBroadcastFlagsI AUDIO_EVENT_VOLUME
                        (with_audio (set_volume v (audio m)) m))
        | None => None
        end
    | _, _ => None
    end.
Proof.
  intros H. apply Z.eqb_neq in H.
  unfold notify_volume, load_control_data, bind, gets, lift, modify.
  rewrite H. destruct (arr_read (control_data m) 0); [|reflexivity].
  destruct (arr_read (control_data m) 1); [|reflexivity].
  destruct (arr_write _ _ _); reflexivity.
Qed.

Lemma get_cur_mute_single channel length m :
  channel <> 0xff ->
  audio_volume_control UAC_REQ_GET_CUR UAC_FU_MUTE_CONTROL channel length m
  = match arr_read (mute (audio m)) (channel - 1) with
    | Some b =>
        match memcpy (control_data m) 0 [u8_of_bool b] with
        | Some d =>
            Some (true, set_ep0 (Some (PTR_control_data, length, CB_NULL))
                          (with_control_data d m))
        | None => None
        end
    | None => None
    end.
Proof.
  intros H. apply Z.eqb_neq in H.
  change (audio_volume_control UAC_REQ_GET_CUR UAC_FU_MUTE_CONTROL channel length m)
    with (case_GET_CUR UAC_FU_MUTE_CONTROL channel length m).
  unfold case_GET_CUR, store_control_data, usbSetupTransfer, bind, gets, lift,
    modify, ret.
  change (UAC_FU_MUTE_CONTROL =? UAC_FU_MUTE_CONTROL) with true. cbv iota.
  rewrite H. destruct (arr_read _ _); [|reflexivity].
  cbn [control_data]. destruct (memcpy _ _ _); reflexivity.
Qed.

Lemma get_cur_volume_single channel length m :
  channel <> 0xff ->
  audio_volume_control UAC_REQ_GET_CUR UAC_FU_VOLUME_CONTROL channel length m
  = match arr_read (volume (audio m)) (channel - 1) with
    | Some x =>
        match memcpy (control_data m) 0 (int16_bytes x) with
        | Some d =>
            Some (true, set_ep0 (Some (PTR_control_data, length, CB_NULL))
                          (with_control_data d m))
        | None => None
        end
    | None => None
    end.
Proof.
  intros H. apply Z.eqb_neq in H.
  change (audio_volume_control UAC_REQ_GET_CUR UAC_FU_VOLUME_CONTROL channel length m)
    with (case_GET_CUR UAC_FU_VOLUME_CONTROL channel length m).
  unfold case_GET_CUR, store_control_data, usbSetupTransfer, bind, gets, lift,
    modify, ret.
  change (UAC_FU_VOLUME_CONTROL =? UAC_FU_MUTE_CONTROL) with false.
  change (UAC_FU_VOLUME_CONTROL =? UAC_FU_VOLUME_CONTROL) with true. cbv iota.
  rewrite H. destruct (arr_read _ _); [|reflexivity].
  cbn [control_data]. destruct (memcpy _ _ _); reflexivity.
Qed.

Lemma index_in_2 channel :
  0 <= channel - 1 < Z.of_nat 2 <-> channel = 1 \/ channel = 2.
Proof. lia. Qed.

Lemma arr_write_is_Some {A} (l : list A) i v :
  is_Some (arr_write l i v) <-> 0 <= i < Z.of_nat (length l).
Proof.
  unfold arr_write. destruct (decide _) as [H|H].
  - split; [intros _; exact H | intros _; eexists; reflexivity].
  - split; [intros [x Hx]; discriminate | intros H'; contradiction].
Qed.

(** C9.  Nothing checks the channel selector.  For a selector other than
    0xFF, GET_CUR of the mute or of the volume control and the completion
    callbacks of SET_CUR access [mute] or [volume] at index [channel - 1]:
    the access is inside the two-element array exactly when the selector is
    1 or 2, and it fails for every other selector, 0 among them. *)
Theorem channel_selector_not_validated m channel len :
  wf m -> channel <> 0xff ->
  (is_Some (arr_read (mute (audio m)) (channel - 1)) <-> channel = 1 \/ channel = 2)
  /\ (is_Some (arr_read (volume (audio m)) (channel - 1))
      <-> channel = 1 \/ channel = 2)
  /\ (is_Some (audio_volume_control UAC_REQ_GET_CUR UAC_FU_MUTE_CONTROL
                                    channel len m)
      <-> channel = 1 \/ channel = 2)
  /\ (is_Some (audio_volume_control UAC_REQ_GET_CUR UAC_FU_VOLUME_CONTROL
                                    channel len m)
      <-> channel = 1 \/ channel = 2)
  /\ (is_Some (notify_mute (with_control_channel channel m))
      <-> channel = 1 \/ channel = 2)
  /\ (is_Some (notify_volume (with_control_channel channel m))
      <-> channel = 1 \/ channel = 2).
Proof.
  intros [Hm Hv Hcd _ _] Hall.
  assert (Rm : is_Some (arr_read (mute (audio m)) (channel - 1))
               <-> channel = 1 \/ channel = 2)
    by (rewrite arr_read_is_Some, Hm; apply index_in_2).
  assert (Rv : is_Some (arr_read (volume (audio m)) (channel - 1))
               <-> channel = 1 \/ channel = 2)
    by (rewrite arr_read_is_Some, Hv; apply index_in_2).
  assert (R0 : is_Some (arr_read (control_data m) 0))
    by (apply arr_read_is_Some; rewrite Hcd; simpl; lia).
  assert (R1 : is_Some (arr_read (control_data m) 1))
    by (apply arr_read_is_Some; rewrite Hcd; simpl; lia).
  split; [exact Rm|]. split; [exact Rv|].
  rewrite get_cur_mute_single, get_cur_volume_single by assumption.
  rewrite notify_mute_single, notify_volume_single by assumption.
  cbn [with_control_channel control_data control_channel audio].
  rewrite <- Rm at 1. rewrite <- Rv at 1.
  destruct R0 as [b0 ->], R1 as [b1 ->].
  repeat split.
  - destruct (arr_read (mute (audio m)) (channel - 1)); [eauto|].
    intros [? ?]; discriminate.
  - intros [b ->]. rewrite memcpy_inside by (rewrite ?Hcd; simpl; lia). eauto.
  - destruct (arr_read (volume (audio m)) (channel - 1)); [eauto|].
    intros [? ?]; discriminate.
  - intros [x ->]. rewrite memcpy_inside by (rewrite ?Hcd; simpl; lia). eauto.
  - intros HS. apply index_in_2. rewrite <- Hm.
    apply (arr_write_is_Some _ _ (bool_of_u8 b0)).
    destruct (arr_write _ _ _); [eauto | destruct HS; discriminate].
  - intros HS. apply index_in_2 in HS. rewrite <- Hm in HS.
    apply (arr_write_is_Some _ _ (bool_of_u8 b0)) in HS.
    destruct HS as [t ->]. eauto.
  - intros HS. apply index_in_2. rewrite <- Hv.
    apply (arr_write_is_Some _ _ (int16_of_bytes b0 b1)).
    destruct (arr_write _ _ _); [eauto | destruct HS; discriminate].
  - intros HS. apply index_in_2 in HS. rewrite <- Hv in HS.
    apply (arr_write_is_Some _ _ (int16_of_bytes b0 b1)) in HS.
    destruct HS as [t ->]. eauto.
Qed.

Lemma channel_selector_not_validated_witness :
  audio_volume_control UAC_REQ_GET_CUR UAC_FU_MUTE_CONTROL 0 1 init_machine = None
  /\ notify_volume (with_control_channel 3 init_machine) = None
  /\ is_Some (audio_volume_control UAC_REQ_GET_CUR UAC_FU_VOLUME_CONTROL 2 2
                                   init_machine).
Proof.
  assert (H0 : (0 : Z) <> 0xff) by discriminate.
  assert (H3 : (3 : Z) <> 0xff) by discriminate.
  assert (H2 : (2 : Z) <> 0xff) by discriminate.
  split; [|split].
  - apply eq_None_not_Some. intros HS.
    apply (channel_selector_not_validated init_machine 0 1 init_machine_wf H0)
      in HS. lia.
  - apply eq_None_not_Some. intros HS.
    apply (channel_selector_not_validated init_machine 3 1 init_machine_wf H3)
      in HS. lia.
  - apply (channel_selector_not_validated init_machine 2 2 init_machine_wf H2).
    now right.
Defined.

(** ** The staging buffer and the volume range requests *)

Lemma fill_int16_is_Some count : forall i v d,
  0 <= i ->
  is_Some (fill_int16 count i v d)
  <-> count = 0%nat \/ 2 * (i + Z.of_nat count) <= Z.of_nat (length d).
Proof.
  induction count as [|k IH]; intros i v d Hi.
  - simpl. split; [now left | intros _; eexists; reflexivity].
  - cbn [fill_int16].
    destruct (Z_le_gt_dec (2 * i + 2) (Z.of_nat (length d))) as [Hin|Hout].
    + rewrite memcpy_inside by (unfold int16_bytes; simpl; lia).
      rewrite IH by lia.
      rewrite !length_app, length_take, length_drop.
      unfold int16_bytes. cbn [length]. lia.
    + rewrite memcpy_outside by (unfold int16_bytes; simpl; (discriminate || lia)).
      split; [intros [x Hx]; discriminate | lia].
Qed.

Lemma fill_request_unfold v length m :
  (let* _ := fill_control_data length v in
   let* _ := usbSetupTransfer PTR_control_data length CB_NULL in
   ret true) m
  = match fill_int16 (Z.to_nat length) 0 v (control_data m) with
    | Some d =>
        Some (true, set_ep0 (Some (PTR_control_data, length, CB_NULL))
                      (with_control_data d m))
    | None => None
    end.
Proof.
  unfold fill_control_data, usbSetupTransfer, bind, gets, lift, modify, ret.
  destruct (fill_int16 _ _ _ _); reflexivity.
Qed.

Lemma flat_map_pairs_length (f g : nat -> Z) n : forall s,
  length (flat_map (fun i => [f i; g i]) (seq s n)) = (2 * n)%nat.
Proof.
  induction n as [|n IH]; intros s; [reflexivity|].
  cbn [seq flat_map app length]. rewrite IH. lia.
Qed.

Lemma fill_offsets_bound len :
  0 <= len ->
  Forall (fun o => 0 <= o < 8) (fill_offsets len) <-> len <= 4.
Proof.
  intros Hlen. unfold fill_offsets. rewrite List.Forall_forall. split.
  - intros H. destruct (Z_le_gt_dec len 4) as [|Hgt]; [assumption|].
    assert (Hin : In 8 (flat_map (fun i => [2 * Z.of_nat i; 2 * Z.of_nat i + 1])
                                 (seq 0 (Z.to_nat len)))).
    { apply in_flat_map. exists 4%nat. split; [apply in_seq; lia | now left]. }
    apply H in Hin. lia.
  - intros Hle o Ho. apply in_flat_map in Ho. destruct Ho as (i & Hi & Ho).
    apply in_seq in Hi. destruct Ho as [<-|[<-|[]]]; lia.
Qed.

(** C10.  GET_MAX, GET_MIN and GET_RES of the volume control store [length]
    16-bit values, that is to the 2 [length] byte offsets from 0, into the
    8 bytes of [control_data]; the stores are all inside the buffer exactly
    when [length] is at most 4, and from 5 on the request writes past its
    end. *)
Theorem volume_range_requests_overrun m req channel len :
  length (control_data m) = 8%nat ->
  In req [UAC_REQ_GET_MAX; UAC_REQ_GET_MIN; UAC_REQ_GET_RES] ->
  0 <= len ->
  Z.of_nat (length (fill_offsets len)) = 2 * len
  /\ (Forall (fun o => 0 <= o < 8) (fill_offsets len) <-> len <= 4)
  /\ (is_Some (audio_volume_control req UAC_FU_VOLUME_CONTROL channel len m)
      <-> len <= 4)
  /\ (5 <= len ->
      audio_volume_control req UAC_FU_VOLUME_CONTROL channel len m = None).
Proof.
  intros Hcd Hreq Hlen.
  assert (Hv : exists v,
             audio_volume_control req UAC_FU_VOLUME_CONTROL channel len m
             = match fill_int16 (Z.to_nat len) 0 v (control_data m) with
               | Some d =>
                   Some (true, set_ep0 (Some (PTR_control_data, len, CB_NULL))
                                 (with_control_data d m))
               | None => None
               end).
  { destruct Hreq as [<-|[<-|[<-|[]]]].
    - exists 0. apply fill_request_unfold.
    - exists (-96 * 256). apply fill_request_unfold.
    - exists 128. apply fill_request_unfold. }
  destruct Hv as [v Hv].
  assert (Hfill : is_Some (fill_int16 (Z.to_nat len) 0 v (control_data m))
                  <-> len <= 4).
  { rewrite fill_int16_is_Some by lia. rewrite Hcd. simpl Z.of_nat. lia. }
  split; [|split; [|split]].
  - unfold fill_offsets. rewrite flat_map_pairs_length. lia.
  - now apply fill_offsets_bound.
  - rewrite Hv, <- Hfill.
    destruct (fill_int16 _ _ _ _); split; intros [? ?]; try discriminate; eauto.
  - intros H5. rewrite Hv.
    destruct (fill_int16 _ _ _ _) eqn:E; [|reflexivity].
    assert (len <= 4) by (apply Hfill; eauto). lia.
Qed.

Lemma volume_range_requests_overrun_witness :
  audio_volume_control UAC_REQ_GET_MIN UAC_FU_VOLUME_CONTROL 1 5 init_machine
  = None
  /\ is_Some (audio_volume_control UAC_REQ_GET_RES UAC_FU_VOLUME_CONTROL 1 4
                                   init_machine)
  /\ fill_offsets 5 = [0; 1; 2; 3; 4; 5; 6; 7; 8; 9].
Proof.
  split; [|split; [|reflexivity]].
  - apply (volume_range_requests_overrun init_machine UAC_REQ_GET_MIN 1 5);
      [reflexivity | simpl; tauto | lia | lia].
  - apply (volume_range_requests_overrun init_machine UAC_REQ_GET_RES 1 4);
      [reflexivity | simpl; tauto | lia | lia].
Defined.

(** * Further properties of the capture *)

(** The handler touches the capture variables and the valid flag, which it
    never clears, and nothing else: not the queue, the playback, mute and
    volume state, the I2S buffer, the control buffer or the USB transfers. *)
Theorem tim2_handler_frame TIM_SR_TIF value sr m :
  let m' := STM32_TIM2_HANDLER TIM_SR_TIF value sr m in
  audio m' = set_sof_feedback_valid (sof_feedback_valid (audio m')) (audio m)
  /\ (sof_feedback_valid (audio m) = true ->
      sof_feedback_valid (audio m') = true)
  /\ i2s m' = i2s m
  /\ control_data m' = control_data m
  /\ control_channel m' = control_channel m
  /\ usb m' = usb m.
Proof.
  destruct m as [[ev q pm pb fv mu vo] so ii cd cc us].
  unfold STM32_TIM2_HANDLER. cbn.
  destruct (Z.land sr TIM_SR_TIF =? 0); [cbn; tauto|].
  destruct (sof_first so); [cbn; tauto|].
  destruct (sof_delta_count so =? 31); cbn; tauto.
Qed.

Lemma tim2_handler_frame_witness :
  let m := with_audio (mk_audio 0 [1; 2] false true true [true; false] [5; 6])
                      init_machine in
  sof_feedback_valid (audio (STM32_TIM2_HANDLER 0x40 77 0x40 m)) = true.
Proof.
  intros m. apply (tim2_handler_frame 0x40 77 0x40 m). reflexivity.
Defined.

Lemma f1014_mod x :
  Z.land (u32 (Z.shiftl x 1)) 0xFFFFFF = (2 * x) mod 2 ^ 24.
Proof.
  change 0xFFFFFF with (Z.ones 24).
  rewrite Z.land_ones by lia. rewrite Z.shiftl_mul_pow2 by lia.
  unfold u32. change (2 ^ 1) with 2.
  change (2 ^ 32) with 4294967296. change (2 ^ 24) with 16777216.
  Z.to_euclidean_division_equations. lia.
Qed.

(** The three feedback bytes are bytes, and read low byte first they are
    twice the accumulated delta, modulo 2^24. *)
Theorem sof_feedback_bytes_decode delta :
  exists b0 b1 b2,
    sof_feedback_bytes delta = [b0; b1; b2]
    /\ 0 <= b0 < 256 /\ 0 <= b1 < 256 /\ 0 <= b2 < 256
    /\ b0 + 256 * b1 + 65536 * b2 = (2 * delta) mod 2 ^ 24.
Proof.
  unfold sof_feedback_bytes. cbv zeta. rewrite f1014_mod.
  set (f := (2 * delta) mod 2 ^ 24).
  assert (Hf : 0 <= f < 2 ^ 24) by (apply Z.mod_pos_bound; reflexivity).
  rewrite (byte_split f Hf). cbn [le_bytes].
  do 3 eexists. split; [reflexivity|].
  change (2 ^ 24) with 16777216 in Hf.
  repeat split; try (apply Z.mod_pos_bound; lia).
  Z.to_euclidean_division_equations. lia.
Qed.

(** The first window after a start, whatever the counter does. *)
Lemma first_window_feedback TIM_SR_TIF c0 rest m :
  frame_boundary TIM_SR_TIF c0 ->
  Forall (frame_boundary TIM_SR_TIF) rest -> length rest = 32%nat ->
  let after := run_TIM2 TIM_SR_TIF (c0 :: rest) (start_sof_capture m) in
  sof_feedback_data (sof after)
  = le_bytes 3 (Z.land (Z.shiftl (Zsum (sof_deltas (fst c0) (map fst rest))) 1)
                       0xFFFFFF)
  /\ sof_feedback_valid (audio after) = true.
Proof.
  intros H0 Hrest Hn after. unfold after.
  destruct (exists_last (l := rest)) as (front & c & ->);
    [intros ->; discriminate|].
  apply Forall_app in Hrest. destruct Hrest as [Hfront Hc].
  inversion Hc as [|? ? Hc' _]; subst.
  change (c0 :: front ++ [c]) with ((c0 :: front) ++ [c]).
  rewrite run_snoc.
  destruct (sof_inv_after_start TIM_SR_TIF c0 front m H0 Hfront)
    as (I1 & I2 & I3 & I4).
  rewrite length_app in Hn. simpl in Hn.
  assert (Hlen : length (sof_deltas (fst c0) (map fst front)) = 31%nat)
    by (rewrite sof_deltas_length, length_map; lia).
  rewrite Hlen in I3, I4. change (31 mod 32)%nat with 31%nat in I3, I4.
  destruct (handler_window_end TIM_SR_TIF (fst c) (snd c) _ Hc' I1 I3)
    as [Hs Hv].
  rewrite Hs, Hv. cbn [sof_feedback_data]. split; [|reflexivity].
  rewrite I4, I2, u32_add_l, sof_feedback_bytes_le.
  rewrite List.map_app. cbn [map].
  rewrite sof_deltas_snoc, Zsum_app. cbn [Zsum fold_right].
  unfold lastn. rewrite Hlen, Nat.sub_diag, drop_0.
  do 3 f_equal. lia.
Qed.

(** The handler's delta is the wrap-corrected one, less one whenever the
    reading did not grow. *)
Lemma sof_increment_short last value :
  sof_increment last value
  = u32 (wrap_corrected_delta last value - (if last <? value then 0 else 1)).
Proof.
  unfold sof_increment, wrap_corrected_delta, u32, UINT32_MAX.
  change (2 ^ 32) with 4294967296.
  destruct (last <? value); Z.to_euclidean_division_equations; lia.
Qed.

Lemma sof_deltas_short vs : forall last,
  u32 (Zsum (sof_deltas last vs))
  = u32 (Zsum (wrap_corrected_deltas last vs) - wrapped_readings last vs).
Proof.
  induction vs as [|v vs IH]; intros last; [reflexivity|].
  cbn [sof_deltas wrap_corrected_deltas wrapped_readings Zsum fold_right].
  fold (Zsum (sof_deltas v vs)). fold (Zsum (wrap_corrected_deltas v vs)).
  specialize (IH v). rewrite sof_increment_short.
  revert IH. unfold u32. change (2 ^ 32) with 4294967296.
  generalize (Zsum (sof_deltas v vs)) (Zsum (wrap_corrected_deltas v vs))
             (wrapped_readings v vs) (wrap_corrected_delta last v)
             (if last <? v then 0 else 1).
  intros a b c d e. Z.to_euclidean_division_equations. lia.
Qed.

(** So the first feedback after a start encodes the sum of the wrap-corrected
    deltas less the number of readings that did not grow. *)
Lemma first_window_feedback_short TIM_SR_TIF c0 rest m :
  frame_boundary TIM_SR_TIF c0 ->
  Forall (frame_boundary TIM_SR_TIF) rest -> length rest = 32%nat ->
  sof_feedback_data
    (sof (run_TIM2 TIM_SR_TIF (c0 :: rest) (start_sof_capture m)))
  = le_bytes 3
      (Z.land (Z.shiftl (Zsum (wrap_corrected_deltas (fst c0) (map fst rest))
                         - wrapped_readings (fst c0) (map fst rest)) 1)
              0xFFFFFF).
Proof.
  intros H0 Hrest Hn.
  destruct (first_window_feedback TIM_SR_TIF c0 rest m H0 Hrest Hn) as [-> _].
  f_equal. rewrite <- (f1014_u32 (Zsum (sof_deltas _ _))).
  rewrite sof_deltas_short. apply f1014_u32.
Qed.

Lemma ascending_last vs : forall last,
  ascending last vs = true -> last <= List.last vs last.
Proof.
  induction vs as [|v vs IH]; intros last H; [simpl; lia|].
  cbn [ascending] in H. apply andb_true_iff in H. destruct H as [H1 H2].
  apply Z.ltb_lt in H1. rewrite last_cons_default.
  specialize (IH v H2). lia.
Qed.

(** Without a wrap the deltas add up to the distance covered. *)
Lemma sof_deltas_ascending vs : forall last,
  0 <= last -> ascending last vs = true -> List.last vs last < 2 ^ 32 ->
  Zsum (sof_deltas last vs) = List.last vs last - last.
Proof.
  induction vs as [|v vs IH]; intros last H0 Hasc Hmax; [simpl; lia|].
  cbn [ascending] in Hasc. apply andb_true_iff in Hasc.
  destruct Hasc as [H1 H2]. rewrite last_cons_default in *.
  pose proof (ascending_last vs v H2) as Hle.
  cbn [sof_deltas Zsum fold_right]. fold (Zsum (sof_deltas v vs)).
  unfold sof_increment. rewrite H1. apply Z.ltb_lt in H1.
  rewrite u32_small by lia. rewrite IH by (assumption || lia). lia.
Qed.

(** When the counter does not wrap between the first and the 33rd frame
    boundary after a start, the feedback is twice the number of ticks
    counted over these 32 frames, on 24 bits. *)
Theorem sof_feedback_measures_ticks TIM_SR_TIF c0 rest m :
  frame_boundary TIM_SR_TIF c0 ->
  Forall (frame_boundary TIM_SR_TIF) rest -> length rest = 32%nat ->
  0 <= fst c0 -> ascending (fst c0) (map fst rest) = true ->
  List.last (map fst rest) (fst c0) < 2 ^ 32 ->
  let after := run_TIM2 TIM_SR_TIF (c0 :: rest) (start_sof_capture m) in
  sof_feedback_data (sof after)
  = le_bytes 3 (Z.land (Z.shiftl (List.last (map fst rest) (fst c0) - fst c0) 1)
                       0xFFFFFF)
  /\ sof_feedback_valid (audio after) = true.
Proof.
  intros H0 Hrest Hn Hpos Hasc Hmax after.
  destruct (first_window_feedback TIM_SR_TIF c0 rest m H0 Hrest Hn) as [Hf Hv].
  fold after in Hf, Hv. split; [|exact Hv].
  rewrite Hf. now rewrite sof_deltas_ascending.
Qed.

Lemma sof_feedback_measures_ticks_witness :
  let rest := map (fun i => (5 + Z.of_nat i * 12290, 0x40)) (seq 1 32) in
  sof_feedback_data
    (sof (run_TIM2 0x40 ((5, 0x40) :: rest) (start_sof_capture init_machine)))
  = le_bytes 3 (2 * (32 * 12290)).
Proof.
  intros rest.
  assert (Hrest : Forall (frame_boundary 0x40) rest).
  { apply List.Forall_forall. intros x Hx. apply in_map_iff in Hx.
    destruct Hx as [i [<- _]]. vm_compute. discriminate. }
  destruct (sof_feedback_measures_ticks 0x40 (5, 0x40) rest init_machine)
    as [Hf _];
    [vm_compute; discriminate | exact Hrest | reflexivity | simpl; lia
     | reflexivity | reflexivity | exact Hf].
Defined.

Lemma ascending_progression d n : forall a s,
  0 < d ->
  ascending (a + Z.of_nat s * d)
            (map (fun i => a + Z.of_nat i * d) (seq (S s) n)) = true.
Proof.
  induction n as [|n IH]; intros a s Hd; [reflexivity|].
  cbn [seq map ascending]. rewrite IH by assumption.
  rewrite andb_true_r. apply Z.ltb_lt. lia.
Qed.

(** A steady clock.  When every frame boundary finds the counter [d] ticks
    further, the feedback is 64 [d] on 24 bits; for a master clock of 256
    ticks per sample and [k] samples per frame this is [k] in 10.14 fixed
    point, [k * 2 ^ 14]. *)
Theorem sof_feedback_steady_rate TIM_SR_TIF c0 rest d m :
  frame_boundary TIM_SR_TIF c0 ->
  Forall (frame_boundary TIM_SR_TIF) rest ->
  map fst rest = map (fun i => fst c0 + Z.of_nat i * d) (seq 1 32) ->
  0 <= fst c0 -> 0 < d -> fst c0 + 32 * d < 2 ^ 32 ->
  let after := run_TIM2 TIM_SR_TIF (c0 :: rest) (start_sof_capture m) in
  sof_feedback_data (sof after) = le_bytes 3 ((64 * d) mod 2 ^ 24)
  /\ (forall k, 0 <= k < 1024 -> d = 256 * k ->
      sof_feedback_data (sof after) = le_bytes 3 (k * 2 ^ 14)).
Proof.
  intros H0 Hrest Hvals Hpos Hd Hmax after.
  assert (Hn : length rest = 32%nat).
  { rewrite <- (length_map fst rest), Hvals, length_map, length_seq.
    reflexivity. }
  destruct (first_window_feedback TIM_SR_TIF c0 rest m H0 Hrest Hn) as [Hf _].
  fold after in Hf.
  assert (Hsum : Zsum (sof_deltas (fst c0) (map fst rest)) = 32 * d).
  { rewrite Hvals.
    pose proof (ascending_progression d 32 (fst c0) 0 Hd) as Hasc.
    change (Z.of_nat 0) with 0 in Hasc. rewrite Z.mul_0_l, Z.add_0_r in Hasc.
    rewrite sof_deltas_ascending; try assumption.
    cbn [seq map List.last]. change (Z.of_nat 32) with 32. lia. }
  assert (Hval : Z.land (Z.shiftl (32 * d) 1) 0xFFFFFF = (64 * d) mod 2 ^ 24).
  { change 0xFFFFFF with (Z.ones 24). rewrite Z.land_ones by lia.
    rewrite Z.shiftl_mul_pow2 by lia. f_equal. lia. }
  rewrite Hf, Hsum, Hval. split; [reflexivity|].
  intros k Hk ->. f_equal.
  replace (64 * (256 * k)) with (k * 2 ^ 14) by lia.
  apply Z.mod_small. lia.
Qed.

Lemma sof_feedback_steady_rate_witness :
  let rest := map (fun i => (1000 + Z.of_nat i * 12288, 0x40)) (seq 1 32) in
  sof_feedback_data
    (sof (run_TIM2 0x40 ((1000, 0x40) :: rest) (start_sof_capture init_machine)))
  = le_bytes 3 (48 * 2 ^ 14).
Proof.
  intros rest.
  assert (Hrest : Forall (frame_boundary 0x40) rest).
  { apply List.Forall_forall. intros x Hx. apply in_map_iff in Hx.
    destruct Hx as [i [<- _]]. vm_compute. discriminate. }
  destruct (sof_feedback_steady_rate 0x40 (1000, 0x40) rest 12288 init_machine)
    as [_ Hk];
    [vm_compute; discriminate | exact Hrest | reflexivity | simpl; lia
     | lia | reflexivity | apply (Hk 48); lia].
Defined.

(** * Further properties of the control requests *)

Lemma fill_int16_length count : forall i v d d',
  fill_int16 count i v d = Some d' -> length d' = length d.
Proof.
  induction count as [|k IH]; intros i v d d'; cbn [fill_int16].
  - now intros [= <-].
  - destruct (memcpy d (2 * i) (int16_bytes v)) as [d1|] eqn:E; [|discriminate].
    intros H. rewrite (IH _ _ _ _ H). eapply memcpy_length, E.
Qed.

(** ** Rules for the results of a computation *)

Lemma post_ret {A} (a : A) m (Q : A -> machine -> Prop) :
  Q a m -> M_post (ret a) m Q.
Proof. intros H a' m' [= <- <-]. exact H. Qed.

Lemma post_bind {A B} (c : M A) (k : A -> M B) m (Q : B -> machine -> Prop) :
  M_post c m (fun a m1 => M_post (k a) m1 Q) -> M_post (bind c k) m Q.
Proof.
  intros H b m'. unfold bind. destruct (c m) as [[a m1]|] eqn:E; [|discriminate].
  apply (H a m1 E).
Qed.

Lemma post_gets {A} (f : machine -> A) m (Q : A -> machine -> Prop) :
  Q (f m) m -> M_post (gets f) m Q.
Proof. intros H a' m' [= <- <-]. exact H. Qed.

Lemma post_modify (f : machine -> machine) m (Q : unit -> machine -> Prop) :
  Q tt (f m) -> M_post (modify f) m Q.
Proof. intros H a' m' [= <- <-]. exact H. Qed.

Lemma post_lift {A} (o : option A) m (Q : A -> machine -> Prop) :
  (forall a, o = Some a -> Q a m) -> M_post (lift o) m Q.
Proof.
  intros H a' m'. unfold lift. destruct o as [a|]; [|discriminate].
  intros [= <- <-]. now apply H.
Qed.

(** Runs a computation symbolically: every path that returns leaves its
    result and final machine in the goal, with the conditions of the path as
    hypotheses. *)
Ltac wp_step :=
  first
    [ apply post_bind
    | apply post_ret
    | apply post_gets
    | apply post_modify
    | (apply post_lift; intros ? ?)
    | match goal with
      | |- M_post (if ?b then _ else _) _ _ => destruct b eqn:?
      | |- M_post (match ?x with _ => _ end) _ _ => destruct x eqn:?
      end ].

Ltac wp_unfold :=
  unfold audio_control, audio_volume_control, case_SET_MAX_MIN_RES,
    case_GET_MAX, case_GET_MIN, case_GET_RES, case_GET_CUR, case_SET_CUR,
    case_default, fill_control_data, store_control_data, load_control_data,
    usbSetupTransfer, clear_ep0, notify_mute, notify_volume, run_callback,
    ep0_data_out, ep0_data_in.

Ltac wp := repeat first [progress wp_unfold | wp_step].

(** A request is served by staging only: whatever the request, a call that
    returns leaves playback, mute, volume, the queue, the capture and the
    I2S buffer as they were and keeps the size of [control_data]; when it
    returns true, a data stage on [control_data] of the requested length is
    set up. *)
Theorem control_request_only_stages req ctrl channel length m r m' :
  audio_volume_control req ctrl channel length m = Some (r, m') ->
  audio m' = audio m /\ sof m' = sof m /\ i2s m' = i2s m
  /\ Datatypes.length (control_data m') = Datatypes.length (control_data m)
  /\ (r = true ->
      exists cb, ep0 (usb m') = Some (PTR_control_data, length, cb)).
Proof.
  revert r m'.
  change (M_post (audio_volume_control req ctrl channel length) m
            (fun r m' =>
               audio m' = audio m /\ sof m' = sof m /\ i2s m' = i2s m
               /\ Datatypes.length (control_data m')
                  = Datatypes.length (control_data m)
               /\ (r = true ->
                   exists cb,
                     ep0 (usb m') = Some (PTR_control_data, length, cb)))).
  wp; cbn; repeat split;
    try reflexivity;
    try (eapply fill_int16_length; eassumption);
    try (eapply memcpy_length; eassumption);
    try (intros _; eexists; reflexivity);
    try discriminate.
Qed.

Lemma control_request_only_stages_witness :
  let m := with_audio (mk_audio 0 [9] false true true [true; false] [-512; 256])
                      init_machine in
  exists r m',
    audio_volume_control UAC_REQ_SET_CUR UAC_FU_VOLUME_CONTROL 2 2 m
    = Some (r, m')
    /\ audio m' = audio m.
Proof.
  intros m.
  destruct (audio_volume_control UAC_REQ_SET_CUR UAC_FU_VOLUME_CONTROL 2 2 m)
    as [[r m']|] eqn:E; [|discriminate E].
  exists r, m'. split; [reflexivity|].
  apply (control_request_only_stages UAC_REQ_SET_CUR UAC_FU_VOLUME_CONTROL
           2 2 m r m' E).
Defined.

Lemma orb3_false a b c : a || b || c = false -> a = false /\ b = false /\ c = false.
Proof. destruct a, b, c; simpl; intros; try discriminate; auto. Qed.

(** The requests refused.  [audio_volume_control] returns false exactly for
    a request code that is none of the eight of audio.h or a control
    selector that is neither mute nor volume, and it then changes nothing. *)
Theorem control_request_refused req ctrl channel length m m' :
  audio_volume_control req ctrl channel length m = Some (false, m')
  <-> m' = m
      /\ (~ In req [UAC_REQ_SET_CUR; UAC_REQ_SET_MIN; UAC_REQ_SET_MAX;
                    UAC_REQ_SET_RES; UAC_REQ_GET_CUR; UAC_REQ_GET_MIN;
                    UAC_REQ_GET_MAX; UAC_REQ_GET_RES]
          \/ (ctrl <> UAC_FU_MUTE_CONTROL /\ ctrl <> UAC_FU_VOLUME_CONTROL)).
Proof.
  split.
  - revert m'.
    assert (H : M_post (audio_volume_control req ctrl channel length) m
                  (fun r m' =>
                     r = false ->
                     m' = m
                     /\ (~ In req [UAC_REQ_SET_CUR; UAC_REQ_SET_MIN;
                                   UAC_REQ_SET_MAX; UAC_REQ_SET_RES;
                                   UAC_REQ_GET_CUR; UAC_REQ_GET_MIN;
                                   UAC_REQ_GET_MAX; UAC_REQ_GET_RES]
                         \/ (ctrl <> UAC_FU_MUTE_CONTROL
                             /\ ctrl <> UAC_FU_VOLUME_CONTROL)))).
    { wp; intros Hr; try discriminate Hr; (split; [reflexivity|]);
        repeat match goal with
               | E : _ || _ || _ = false |- _ =>
                   apply orb3_false in E; destruct E as (? & ? & ?)
               | E : (_ =? _) = false |- _ => apply Z.eqb_neq in E
               end;
        first [ right; split; assumption
              | left; simpl; intros Hin;
                repeat (destruct Hin as [Hin|Hin]; [congruence|]);
                exact Hin ]. }
    intros m' Hrun. now apply (H false m' Hrun).
  - intros [-> [Hreq|[Hm Hv]]].
    + now apply audio_volume_control_unknown_req.
    + now apply audio_volume_control_unknown_ctrl.
Qed.

Lemma control_request_refused_witness :
  audio_volume_control 0x05 UAC_FU_VOLUME_CONTROL 1 2 init_machine
  = Some (false, init_machine)
  /\ audio_volume_control UAC_REQ_GET_CUR 0x03 1 2 init_machine
     = Some (false, init_machine).
Proof.
  split.
  - apply (control_request_refused 0x05 UAC_FU_VOLUME_CONTROL 1 2).
    split; [reflexivity|]. left. simpl. intros H.
    repeat (destruct H as [H|H]; [discriminate H|]). exact H.
  - apply (control_request_refused UAC_REQ_GET_CUR 0x03 1 2).
    split; [reflexivity|]. right. split; discriminate.
Defined.

Lemma get_cur_is_Some ctrl channel len m :
  wf m -> ctrl = UAC_FU_MUTE_CONTROL \/ ctrl = UAC_FU_VOLUME_CONTROL ->
  is_Some (case_GET_CUR ctrl channel len m)
  <-> channel = 1 \/ channel = 2 \/ channel = 0xff.
Proof.
  intros Hwf Hctrl.
  destruct (Z.eq_dec channel 0xff) as [->|Hne].
  - split; [intros _; now right; right|]. intros _.
    wf_machine m Hwf. destruct Hctrl as [->| ->]; cbn; eexists; reflexivity.
  - destruct Hwf as [Hm Hv Hcd _ _].
    destruct Hctrl as [->| ->].
    + change (case_GET_CUR UAC_FU_MUTE_CONTROL channel len m)
        with (audio_volume_control UAC_REQ_GET_CUR UAC_FU_MUTE_CONTROL
                                   channel len m).
      rewrite get_cur_mute_single by assumption.
      destruct (arr_read (mute (audio m)) (channel - 1)) as [b|] eqn:E.
      * rewrite memcpy_inside by (rewrite ?Hcd; simpl; lia).
        assert (is_Some (arr_read (mute (audio m)) (channel - 1)))
          by (rewrite E; eauto).
        rewrite arr_read_is_Some, Hm in H. split; [lia | eauto].
      * split; [intros [? ?]; discriminate|]. intros H.
        assert (is_Some (arr_read (mute (audio m)) (channel - 1)))
          by (apply arr_read_is_Some; rewrite Hm; simpl; lia).
        rewrite E in H0. destruct H0; discriminate.
    + change (case_GET_CUR UAC_FU_VOLUME_CONTROL channel len m)
        with (audio_volume_control UAC_REQ_GET_CUR UAC_FU_VOLUME_CONTROL
                                   channel len m).
      rewrite get_cur_volume_single by assumption.
      destruct (arr_read (volume (audio m)) (channel - 1)) as [b|] eqn:E.
      * rewrite memcpy_inside by (rewrite ?Hcd; simpl; lia).
        assert (is_Some (arr_read (volume (audio m)) (channel - 1)))
          by (rewrite E; eauto).
        rewrite arr_read_is_Some, Hv in H. split; [lia | eauto].
      * split; [intros [? ?]; discriminate|]. intros H.
        assert (is_Some (arr_read (volume (audio m)) (channel - 1)))
          by (apply arr_read_is_Some; rewrite Hv; simpl; lia).
        rewrite E in H0. destruct H0; discriminate.
Qed.

Lemma fill_request_is_Some v len m :
  length (control_data m) = 8%nat -> 0 <= len ->
  is_Some ((let* _ := fill_control_data len v in
            let* _ := usbSetupTransfer PTR_control_data len CB_NULL in
            ret true) m)
  <-> len <= 4.
Proof.
  intros Hcd Hlen. rewrite fill_request_unfold.
  assert (Hfill : is_Some (fill_int16 (Z.to_nat len) 0 v (control_data m))
                  <-> len <= 4).
  { rewrite fill_int16_is_Some by lia. rewrite Hcd. simpl Z.of_nat. lia. }
  rewrite <- Hfill.
  destruct (fill_int16 _ _ _ _); split; intros [? ?]; try discriminate; eauto.
Qed.

Ltac req_cases req :=
  destruct (Z.eq_dec req UAC_REQ_SET_MAX) as [->|?];
  [|destruct (Z.eq_dec req UAC_REQ_SET_MIN) as [->|?];
    [|destruct (Z.eq_dec req UAC_REQ_SET_RES) as [->|?];
      [|destruct (Z.eq_dec req UAC_REQ_GET_MAX) as [->|?];
        [|destruct (Z.eq_dec req UAC_REQ_GET_MIN) as [->|?];
          [|destruct (Z.eq_dec req UAC_REQ_GET_RES) as [->|?];
            [|destruct (Z.eq_dec req UAC_REQ_GET_CUR) as [->|?];
              [|destruct (Z.eq_dec req UAC_REQ_SET_CUR) as [->|?]]]]]]]].

Ltac unfold_uac :=
  unfold UAC_REQ_SET_CUR, UAC_REQ_SET_MIN, UAC_REQ_SET_MAX, UAC_REQ_SET_RES,
    UAC_REQ_GET_CUR, UAC_REQ_GET_MIN, UAC_REQ_GET_MAX, UAC_REQ_GET_RES,
    UAC_FU_MUTE_CONTROL, UAC_FU_VOLUME_CONTROL in *.

(** The requests that fault.  With the arrays at their declared sizes,
    [audio_volume_control] makes an access outside an array in two cases
    only: a GET_MAX, GET_MIN or GET_RES of the volume with a length above 4,
    and a channel selector other than 1, 2 and 0xFF in a request that reads
    the current value (GET_CUR of the volume, and for the mute GET_CUR and
    the six requests that fall through to it). *)
Theorem control_request_faults req ctrl channel len m :
  wf m -> 0 <= len ->
  audio_volume_control req ctrl channel len m = None
  <-> (ctrl = UAC_FU_VOLUME_CONTROL
       /\ In req [UAC_REQ_GET_MAX; UAC_REQ_GET_MIN; UAC_REQ_GET_RES]
       /\ 4 < len)
      \/ (channel <> 1 /\ channel <> 2 /\ channel <> 0xff
          /\ ((ctrl = UAC_FU_MUTE_CONTROL
               /\ In req [UAC_REQ_SET_MAX; UAC_REQ_SET_MIN; UAC_REQ_SET_RES;
                          UAC_REQ_GET_MAX; UAC_REQ_GET_MIN; UAC_REQ_GET_RES;
                          UAC_REQ_GET_CUR])
              \/ (ctrl = UAC_FU_VOLUME_CONTROL /\ req = UAC_REQ_GET_CUR))).
Proof.
  intros Hwf Hlen. rewrite eq_None_not_Some.
  pose proof (get_cur_is_Some UAC_FU_MUTE_CONTROL channel len m Hwf
                (or_introl eq_refl)) as Gm.
  pose proof (get_cur_is_Some UAC_FU_VOLUME_CONTROL channel len m Hwf
                (or_intror eq_refl)) as Gv.
  pose proof (fun v => fill_request_is_Some v len m (wf_control_data m Hwf) Hlen)
    as Gf.
  destruct (Z.eq_dec ctrl UAC_FU_MUTE_CONTROL) as [->|Hm];
    [|destruct (Z.eq_dec ctrl UAC_FU_VOLUME_CONTROL) as [->|Hv]].
  - (* mute *)
    req_cases req;
      try (change (audio_volume_control ?r UAC_FU_MUTE_CONTROL channel len m)
             with (case_GET_CUR UAC_FU_MUTE_CONTROL channel len m);
           rewrite Gm; unfold_uac; simpl In;
           intuition (try lia; try discriminate)).
    + (* SET_CUR *)
      split; [intros H; exfalso; apply H; eexists; reflexivity|].
      unfold_uac; simpl In. intuition (try lia; try discriminate).
    + (* unknown request *)
      rewrite audio_volume_control_unknown_req
        by (simpl; intuition congruence).
      split; [intros H; exfalso; apply H; eexists; reflexivity|].
      simpl In. unfold_uac. intuition (try lia; try discriminate).
  - (* volume *)
    req_cases req.
    1-3: (split; [intros H; exfalso; apply H; eexists; reflexivity|];
          unfold_uac; simpl In; intuition (try lia; try discriminate)).
    1-3: (match goal with
          | |- context [audio_volume_control ?r _ _ _ _] =>
              first
                [ change (audio_volume_control r UAC_FU_VOLUME_CONTROL channel len m)
                    with ((let* _ := fill_control_data len 0 in
                           let* _ := usbSetupTransfer PTR_control_data len CB_NULL in
                           ret true) m)
                | change (audio_volume_control r UAC_FU_VOLUME_CONTROL channel len m)
                    with ((let* _ := fill_control_data len (-96 * 256) in
                           let* _ := usbSetupTransfer PTR_control_data len CB_NULL in
                           ret true) m)
                | change (audio_volume_control r UAC_FU_VOLUME_CONTROL channel len m)
                    with ((let* _ := fill_control_data len 128 in
                           let* _ := usbSetupTransfer PTR_control_data len CB_NULL in
                           ret true) m) ]
          end;
          rewrite Gf; unfold_uac; simpl In;
          intuition (try lia; try discriminate)).
    + (* GET_CUR *)
      change (audio_volume_control UAC_REQ_GET_CUR UAC_FU_VOLUME_CONTROL channel len m)
        with (case_GET_CUR UAC_FU_VOLUME_CONTROL channel len m).
      rewrite Gv. unfold_uac; simpl In. intuition (try lia; try discriminate).
    + (* SET_CUR *)
      split; [intros H; exfalso; apply H; eexists; reflexivity|].
      unfold_uac; simpl In. intuition (try lia; try discriminate).
    + rewrite audio_volume_control_unknown_req
        by (simpl; intuition congruence).
      split; [intros H; exfalso; apply H; eexists; reflexivity|].
      simpl In. unfold_uac. intuition (try lia; try discriminate).
  - rewrite audio_volume_control_unknown_ctrl by assumption.
    split; [intros H; exfalso; apply H; eexists; reflexivity|].
    intuition congruence.
Qed.

Lemma control_request_faults_witness :
  audio_volume_control UAC_REQ_GET_RES UAC_FU_VOLUME_CONTROL 0xff 6 init_machine
  = None
  /\ audio_volume_control UAC_REQ_SET_MIN UAC_FU_MUTE_CONTROL 7 1 init_machine
     = None.
Proof.
  split.
  - apply (control_request_faults UAC_REQ_GET_RES UAC_FU_VOLUME_CONTROL 0xff 6
             init_machine init_machine_wf); [lia|].
    left. simpl. split; [reflexivity|]. split; [tauto | lia].
  - apply (control_request_faults UAC_REQ_SET_MIN UAC_FU_MUTE_CONTROL 7 1
             init_machine init_machine_wf); [lia|].
    right. repeat split; try discriminate. left. split; [reflexivity|].
    simpl. tauto.
Defined.

(** ** Round trips of the current values *)

Lemma lor_shiftl_8 b0 b1 :
  0 <= b0 < 256 -> Z.lor b0 (Z.shiftl b1 8) = b0 + 256 * b1.
Proof.
  intros H0. rewrite Z.shiftl_mul_pow2 by lia. change (2 ^ 8) with 256.
  rewrite <- Z.add_nocarry_lor; [lia|].
  apply Z.bits_inj'. intros n Hn. rewrite Z.land_spec, Z.bits_0.
  destruct (Z.ltb_spec n 8) as [Hlt|Hge].
  - replace (b1 * 256) with (b1 * 2 ^ 8) by reflexivity.
    rewrite Z.mul_pow2_bits_low by lia. apply andb_false_r.
  - rewrite <- (Z.mod_small b0 (2 ^ 8)) by (change (2 ^ 8) with 256; lia).
    rewrite Z.mod_pow2_bits_high by lia. reflexivity.
Qed.

(** The two bytes received for a volume are the two bytes sent back. *)
Lemma int16_bytes_of_bytes b0 b1 :
  0 <= b0 < 256 -> 0 <= b1 < 256 ->
  int16_bytes (int16_of_bytes b0 b1) = [b0; b1].
Proof.
  intros H0 H1. unfold int16_bytes, int16_of_bytes, s16, u8.
  rewrite lor_shiftl_8 by assumption. cbv zeta.
  rewrite Z.shiftr_div_pow2 by lia.
  change (2 ^ 16) with 65536. change (2 ^ 15) with 32768.
  change (2 ^ 8) with 256.
  destruct (_ <? _); f_equal; [|f_equal| |f_equal];
    Z.to_euclidean_division_equations; lia.
Qed.

(** SET_CUR of the volume of channel 1 or 2 with the two bytes [b0; b1]
    stores the 16-bit value they hold in that channel's volume only,
    leaves the mute states alone and broadcasts the volume event; GET_CUR
    of the same channel then returns [b0; b1]. *)
Theorem volume_channel_round_trip m channel b0 b1 :
  wf m -> channel = 1 \/ channel = 2 ->
  0 <= b0 < 256 -> 0 <= b1 < 256 ->
  exists m2 m4,
    (let* _ := audio_volume_control UAC_REQ_SET_CUR UAC_FU_VOLUME_CONTROL
                                    channel 2 in
     ep0_data_out [b0; b1]) m = Some (tt, m2)
    /\ volume (audio m2)
       = <[Z.to_nat (channel - 1) := int16_of_bytes b0 b1]> (volume (audio m))
    /\ mute (audio m2) = mute (audio m)
    /\ audio_events (audio m2)
       = Z.lor (audio_events (audio m)) AUDIO_EVENT_VOLUME
    /\ (let* _ := audio_volume_control UAC_REQ_GET_CUR UAC_FU_VOLUME_CONTROL
                                       channel 2 in
        ep0_data_in) m2 = Some ([b0; b1], m4).
Proof.
  intros Hwf Hch H0 H1. wf_machine m Hwf.
  pose proof (int16_bytes_of_bytes b0 b1 H0 H1) as Hrt.
  unfold int16_bytes in Hrt. injection Hrt as Hlo Hhi.
  destruct Hch as [-> | ->].
  - do 2 eexists. split; [cbv -[int16_of_bytes u8 Z.shiftr Z.shiftl Z.lor]; reflexivity|].
    split; [reflexivity|]. split; [reflexivity|]. split; [reflexivity|].
    cbv -[int16_of_bytes u8 Z.shiftr Z.shiftl Z.lor]. rewrite Hlo, Hhi. reflexivity.
  - do 2 eexists. split; [cbv -[int16_of_bytes u8 Z.shiftr Z.shiftl Z.lor]; reflexivity|].
    split; [reflexivity|]. split; [reflexivity|]. split; [reflexivity|].
    cbv -[int16_of_bytes u8 Z.shiftr Z.shiftl Z.lor]. rewrite Hlo, Hhi. reflexivity.
Qed.

Lemma volume_channel_round_trip_witness :
  exists m2 m4,
    (let* _ := audio_volume_control UAC_REQ_SET_CUR UAC_FU_VOLUME_CONTROL 2 2 in
     ep0_data_out [0x80; 0xF6]) init_machine = Some (tt, m2)
    /\ volume (audio m2) = [0; -2432]
    /\ (let* _ := audio_volume_control UAC_REQ_GET_CUR UAC_FU_VOLUME_CONTROL 2 2 in
        ep0_data_in) m2 = Some ([0x80; 0xF6], m4).
Proof.
  destruct (volume_channel_round_trip init_machine 2 0x80 0xF6 init_machine_wf)
    as (m2 & m4 & H1 & H2 & _ & _ & H3); [now right | lia | lia |].
  exists m2, m4. split; [exact H1|]. split; [|exact H3].
  rewrite H2. reflexivity.
Defined.

(** The all-channel form for the volume: SET_CUR with selector 0xFF and six
    bytes skips the first two and stores the other four as the two volumes,
    and GET_CUR with selector 0xFF returns a zero word followed by the two
    volumes, the bytes that were sent. *)
Theorem volume_all_channels_round_trip m x0 x1 a0 a1 b0 b1 :
  wf m ->
  0 <= a0 < 256 -> 0 <= a1 < 256 -> 0 <= b0 < 256 -> 0 <= b1 < 256 ->
  exists m2 m4,
    (let* _ := audio_volume_control UAC_REQ_SET_CUR UAC_FU_VOLUME_CONTROL
                                    0xff 6 in
     ep0_data_out [x0; x1; a0; a1; b0; b1]) m = Some (tt, m2)
    /\ volume (audio m2) = [int16_of_bytes a0 a1; int16_of_bytes b0 b1]
    /\ mute (audio m2) = mute (audio m)
    /\ (let* _ := audio_volume_control UAC_REQ_GET_CUR UAC_FU_VOLUME_CONTROL
                                       0xff 6 in
        ep0_data_in) m2 = Some ([0; 0; a0; a1; b0; b1], m4).
Proof.
  intros Hwf Ha0 Ha1 Hb0 Hb1. wf_machine m Hwf.
  pose proof (int16_bytes_of_bytes a0 a1 Ha0 Ha1) as Ha.
  pose proof (int16_bytes_of_bytes b0 b1 Hb0 Hb1) as Hb.
  unfold int16_bytes in Ha, Hb.
  injection Ha as Halo Hahi. injection Hb as Hblo Hbhi.
  do 2 eexists. split; [cbv -[int16_of_bytes u8 Z.shiftr Z.shiftl Z.lor]; reflexivity|].
  split; [reflexivity|]. split; [reflexivity|].
  cbv -[int16_of_bytes u8 Z.shiftr Z.shiftl Z.lor].
  rewrite Halo, Hahi, Hblo, Hbhi. reflexivity.
Qed.

Lemma volume_all_channels_round_trip_witness :
  exists m2 m4,
    (let* _ := audio_volume_control UAC_REQ_SET_CUR UAC_FU_VOLUME_CONTROL 0xff 6 in
     ep0_data_out [1; 2; 0x00; 0xFF; 0x80; 0x00]) init_machine = Some (tt, m2)
    /\ volume (audio m2) = [-256; 128]
    /\ (let* _ := audio_volume_control UAC_REQ_GET_CUR UAC_FU_VOLUME_CONTROL 0xff 6 in
        ep0_data_in) m2 = Some ([0; 0; 0x00; 0xFF; 0x80; 0x00], m4).
Proof.
  destruct (volume_all_channels_round_trip init_machine 1 2 0x00 0xFF 0x80 0x00
              init_machine_wf)
    as (m2 & m4 & H1 & H2 & _ & H3); [lia | lia | lia | lia |].
  exists m2, m4. split; [exact H1|]. split; [|exact H3].
  rewrite H2. reflexivity.
Defined.

(** SET_CUR of the mute of channel 1 or 2 with one byte [b] mutes that
    channel exactly when [b] is not zero, leaves the other channel and the
    volumes alone and broadcasts the mute event; GET_CUR of the same channel
    then returns 1 or 0, whatever non-zero value was sent. *)
Theorem mute_channel_round_trip m channel b :
  wf m -> channel = 1 \/ channel = 2 ->
  exists m2 m4,
    (let* _ := audio_volume_control UAC_REQ_SET_CUR UAC_FU_MUTE_CONTROL
                                    channel 1 in
     ep0_data_out [b]) m = Some (tt, m2)
    /\ mute (audio m2)
       = <[Z.to_nat (channel - 1) := negb (b =? 0)]> (mute (audio m))
    /\ volume (audio m2) = volume (audio m)
    /\ audio_events (audio m2) = Z.lor (audio_events (audio m)) AUDIO_EVENT_MUTE
    /\ (let* _ := audio_volume_control UAC_REQ_GET_CUR UAC_FU_MUTE_CONTROL
                                       channel 1 in
        ep0_data_in) m2 = Some ([if b =? 0 then 0 else 1], m4).
Proof.
  intros Hwf Hch. wf_machine m Hwf.
  destruct Hch as [-> | ->].
  - do 2 eexists. split; [cbv -[bool_of_u8 Z.shiftl Z.lor]; reflexivity|].
    split; [reflexivity|]. split; [reflexivity|]. split; [reflexivity|].
    cbv -[bool_of_u8 Z.shiftl Z.lor]. unfold bool_of_u8.
    destruct b; reflexivity.
  - do 2 eexists. split; [cbv -[bool_of_u8 Z.shiftl Z.lor]; reflexivity|].
    split; [reflexivity|]. split; [reflexivity|]. split; [reflexivity|].
    cbv -[bool_of_u8 Z.shiftl Z.lor]. unfold bool_of_u8.
    destruct b; reflexivity.
Qed.

Lemma mute_channel_round_trip_witness :
  exists m2 m4,
    (let* _ := audio_volume_control UAC_REQ_SET_CUR UAC_FU_MUTE_CONTROL 1 1 in
     ep0_data_out [0x40]) init_machine = Some (tt, m2)
    /\ mute (audio m2) = [true; false]
    /\ (let* _ := audio_volume_control UAC_REQ_GET_CUR UAC_FU_MUTE_CONTROL 1 1 in
        ep0_data_in) m2 = Some ([1], m4).
Proof.
  destruct (mute_channel_round_trip init_machine 1 0x40 init_machine_wf)
    as (m2 & m4 & H1 & H2 & _ & _ & H3); [now left|].
  exists m2, m4. split; [exact H1|]. split; [|exact H3].
  rewrite H2. reflexivity.
Defined.

(** ** The range requests of the volume *)

(** SET_MAX, SET_MIN and SET_RES of the volume are accepted and their data
    dropped: after the data stage (of at most the 8 bytes the buffer has)
    playback, mute, volume and the events broadcast are what they were. *)
Theorem volume_range_set_discarded m req channel payload :
  wf m ->
  In req [UAC_REQ_SET_MAX; UAC_REQ_SET_MIN; UAC_REQ_SET_RES] ->
  (length payload <= 8)%nat ->
  exists m2,
    (let* ok := audio_volume_control req UAC_FU_VOLUME_CONTROL channel
                                     (Z.of_nat (length payload)) in
     let* _ := ep0_data_out payload in
     ret ok) m = Some (true, m2)
    /\ audio m2 = audio m
    /\ control_channel m2 = control_channel m
    /\ take (length payload) (control_data m2) = payload.
Proof.
  intros Hwf Hreq Hlen. destruct Hwf as [_ _ Hcd _ _].
  set (n := Z.of_nat (length payload)).
  assert (Havc : audio_volume_control req UAC_FU_VOLUME_CONTROL channel n m
                 = Some (true, set_ep0 (Some (PTR_control_data, n, CB_NULL)) m)).
  { destruct Hreq as [<-|[<-|[<-|[]]]]; reflexivity. }
  unfold bind at 1. rewrite Havc.
  unfold ep0_data_out, store_control_data, clear_ep0, run_callback, bind, gets,
    lift, modify, ret.
  cbn [set_ep0 usb ep0 with_usb control_data].
  fold n. rewrite Z.eqb_refl.
  change (control_data (set_ep0 (Some (PTR_control_data, n, CB_NULL)) m))
    with (control_data m).
  rewrite memcpy_inside by (rewrite ?Hcd; lia).
  eexists. split; [reflexivity|]. cbn.
  split; [reflexivity|]. split; [reflexivity|].
  change (Z.to_nat 0) with 0%nat. rewrite take_0. cbn [app].
  now rewrite take_app_length.
Qed.

Lemma volume_range_set_discarded_witness :
  exists m2,
    (let* ok := audio_volume_control UAC_REQ_SET_MIN UAC_FU_VOLUME_CONTROL 1 2 in
     let* _ := ep0_data_out [0x00; 0x80] in
     ret ok) init_machine = Some (true, m2)
    /\ audio m2 = audio init_machine.
Proof.
  destruct (volume_range_set_discarded init_machine UAC_REQ_SET_MIN 1
              [0x00; 0x80] init_machine_wf)
    as (m2 & H1 & H2 & _); [simpl; tauto | simpl; lia |].
  exists m2. split; [exact H1 | exact H2].
Defined.

(** GET_MAX of the volume returns 0 and GET_RES returns 128, low byte
    first, for each of the [k] values asked for, [k] at most 2. *)
Theorem volume_get_max_res m channel k :
  wf m -> (k <= 2)%nat ->
  (exists m1 m2,
     audio_volume_control UAC_REQ_GET_MAX UAC_FU_VOLUME_CONTROL channel
                          (2 * Z.of_nat k) m = Some (true, m1)
     /\ ep0_data_in m1 = Some (concat (repeat [0; 0] k), m2))
  /\ (exists m1 m2,
        audio_volume_control UAC_REQ_GET_RES UAC_FU_VOLUME_CONTROL channel
                             (2 * Z.of_nat k) m = Some (true, m1)
        /\ ep0_data_in m1 = Some (concat (repeat [128; 0] k), m2)).
Proof.
  intros Hwf Hk. wf_machine m Hwf.
  split; destruct k as [|[|[|k]]]; try lia;
    (do 2 eexists; split; [cbn; reflexivity | cbn; reflexivity]).
Qed.

Lemma volume_get_max_res_witness :
  exists m1 m2,
    audio_volume_control UAC_REQ_GET_RES UAC_FU_VOLUME_CONTROL 1 2 init_machine
    = Some (true, m1)
    /\ ep0_data_in m1 = Some ([0x80; 0x00], m2).
Proof.
  destruct (volume_get_max_res init_machine 1 1 init_machine_wf) as [_ H];
    [lia|].
  exact H.
Defined.

(** ** [audio_control] *)

(** Only the feature unit of the control interface is served: a request for
    another interface or entity returns false and changes nothing.  For the
    feature unit, the high byte of [wValue] is the control selector and the
    low byte the channel. *)
Theorem audio_control_decodes iface entity req len m :
  (iface <> AUDIO_CONTROL_INTERFACE \/ entity <> AUDIO_FUNCTION_UNIT_ID ->
   forall wValue, audio_control iface entity req wValue len m = Some (false, m))
  /\ (forall ctrl channel,
        0 <= ctrl < 256 -> 0 <= channel < 256 ->
        audio_control AUDIO_CONTROL_INTERFACE AUDIO_FUNCTION_UNIT_ID req
                      (256 * ctrl + channel) len m
        = audio_volume_control req ctrl channel len m).
Proof.
  split.
  - intros H wValue. unfold audio_control.
    destruct (Z.eqb_spec iface AUDIO_CONTROL_INTERFACE) as [E1|E1];
      [|reflexivity].
    destruct (Z.eqb_spec entity AUDIO_FUNCTION_UNIT_ID) as [E2|E2];
      [|reflexivity].
    tauto.
  - intros ctrl channel Hc Hch. unfold audio_control.
    change (AUDIO_CONTROL_INTERFACE =? AUDIO_CONTROL_INTERFACE) with true.
    change (AUDIO_FUNCTION_UNIT_ID =? AUDIO_FUNCTION_UNIT_ID) with true.
    cbv iota.
    change 0xFF with (Z.ones 8). rewrite !Z.land_ones, Z.shiftr_div_pow2 by lia.
    change (2 ^ 8) with 256.
    replace ((256 * ctrl + channel) / 256 mod 256) with ctrl
      by (Z.to_euclidean_division_equations; lia).
    replace ((256 * ctrl + channel) mod 256) with channel
      by (Z.to_euclidean_division_equations; lia).
    reflexivity.
Qed.

Lemma audio_control_decodes_witness :
  audio_control 1 AUDIO_FUNCTION_UNIT_ID UAC_REQ_GET_CUR 0x0201 2 init_machine
  = Some (false, init_machine)
  /\ audio_control AUDIO_CONTROL_INTERFACE AUDIO_FUNCTION_UNIT_ID
                   UAC_REQ_GET_CUR 0x0201 2 init_machine
     = audio_volume_control UAC_REQ_GET_CUR UAC_FU_VOLUME_CONTROL 1 2
                            init_machine.
Proof.
  split.
  - apply (audio_control_decodes 1 AUDIO_FUNCTION_UNIT_ID UAC_REQ_GET_CUR 2
             init_machine).
    left. discriminate.
  - apply (proj2 (audio_control_decodes AUDIO_CONTROL_INTERFACE
                    AUDIO_FUNCTION_UNIT_ID UAC_REQ_GET_CUR 2 init_machine)
                 2 1); lia.
Defined.

(** * Playback, SETUP requests and driver events *)

(** Starting while playing and stopping while stopped do nothing, not even
    a notification, so both are idempotent.  Starting from the stopped state
    sets [playback], broadcasts the playback event, arms the reception of up
    to [AUDIO_MAX_PACKET_SIZE] bytes and a transmission of no byte; stopping
    from the playing state clears [playback] and broadcasts the event.
    Neither touches mute, volume, the queue or the validity of the
    feedback. *)
Theorem playback_switch m :
  (playback (audio m) = true -> start_playback m = m)
  /\ (playback (audio m) = false -> stop_playback m = m)
  /\ start_playback (start_playback m) = start_playback m
  /\ stop_playback (stop_playback m) = stop_playback m
  /\ playback (audio (start_playback m)) = true
  /\ playback (audio (stop_playback m)) = false
  /\ (playback (audio m) = false ->
      audio_events (audio (start_playback m))
      = Z.lor (audio_events (audio m)) AUDIO_EVENT_PLAYBACK
      /\ ep1_rx (usb (start_playback m)) = Some AUDIO_MAX_PACKET_SIZE
      /\ ep1_receiving (usb (start_playback m)) = true
      /\ ep1_armed (start_playback m) = Some [])
  /\ (playback (audio m) = true ->
      audio_events (audio (stop_playback m))
      = Z.lor (audio_events (audio m)) AUDIO_EVENT_PLAYBACK
      /\ usb (stop_playback m) = usb m)
  /\ (forall m', m' = start_playback m \/ m' = stop_playback m ->
      mute (audio m') = mute (audio m)
      /\ volume (audio m') = volume (audio m)
      /\ audio_queue (audio m') = audio_queue (audio m)
      /\ sof_feedback_valid (audio m') = sof_feedback_valid (audio m)
      /\ sof m' = sof m /\ i2s m' = i2s m
      /\ control_data m' = control_data m).
Proof.
  destruct m as [[ev q pm pb fv mu vo] so ii cd cc us].
  unfold start_playback, stop_playback. cbn [audio playback].
  destruct pb; cbn;
    (split; [intros; try reflexivity; discriminate|]);
    (split; [intros; try reflexivity; discriminate|]);
    do 4 (split; [reflexivity|]);
    (split; [intros; try discriminate; repeat split|]);
    (split; [intros; try discriminate; repeat split|]);
    intros m0 [-> | ->]; repeat split.
Qed.

Lemma playback_switch_witness :
  start_playback (start_playback init_machine) = start_playback init_machine
  /\ stop_playback init_machine = init_machine
  /\ ep1_rx (usb (start_playback init_machine)) = Some 196.
Proof.
  destruct (playback_switch init_machine)
    as (_ & Hstop & Hid & _ & _ & _ & Hstart & _).
  split; [exact Hid|]. split; [now apply Hstop|].
  now apply Hstart.
Defined.

Section RequestsFacts.

Variables USB_RTYPE_TYPE_MASK USB_RTYPE_RECIPIENT_MASK : Z.
Variables USB_RTYPE_TYPE_STD USB_RTYPE_TYPE_CLASS : Z.
Variable USB_RTYPE_RECIPIENT_INTERFACE : Z.
Variable USB_REQ_SET_INTERFACE : Z.

Local Abbreviation hook :=
  (audio_requests_hook USB_RTYPE_TYPE_MASK USB_RTYPE_RECIPIENT_MASK
     USB_RTYPE_TYPE_STD USB_RTYPE_TYPE_CLASS USB_RTYPE_RECIPIENT_INTERFACE
     USB_REQ_SET_INTERFACE).

(** A standard SET_INTERFACE request to the streaming interface is always
    accepted with an empty status stage.  Playback runs after it exactly
    when the alternate setting asked for is 1: every other setting stops
    it.  Mute, volume and the queue stay as they are. *)
Theorem set_interface_switches_playback s0 s1 s2 s3 s4 s5 s6 s7 m :
  Z.land s0 (Z.lor USB_RTYPE_TYPE_MASK USB_RTYPE_RECIPIENT_MASK)
  = Z.lor USB_RTYPE_TYPE_STD USB_RTYPE_RECIPIENT_INTERFACE ->
  s1 = USB_REQ_SET_INTERFACE ->
  Z.lor (Z.shiftl s5 8) s4 = AUDIO_STREAMING_INTERFACE ->
  exists m',
    hook [s0; s1; s2; s3; s4; s5; s6; s7] m = Some (true, m')
    /\ playback (audio m') = (Z.lor (Z.shiftl s3 8) s2 =? 1)
    /\ ep0 (usb m') = Some (PTR_NULL, 0, CB_NULL)
    /\ (playback (audio m) = playback (audio m') ->
        audio m' = audio m /\ ep1_tx (usb m') = ep1_tx (usb m))
    /\ mute (audio m') = mute (audio m)
    /\ volume (audio m') = volume (audio m)
    /\ audio_queue (audio m') = audio_queue (audio m).
Proof.
  intros Htype -> Hif.
  unfold audio_requests_hook, bind, lift, modify, usbSetupTransfer, ret.
  cbn [arr_read decide]. 
  change (arr_read [s0; USB_REQ_SET_INTERFACE; s2; s3; s4; s5; s6; s7] 0)
    with (Some s0).
  cbv iota beta. rewrite Htype, !Z.eqb_refl.
  change (arr_read [s0; USB_REQ_SET_INTERFACE; s2; s3; s4; s5; s6; s7] 1)
    with (Some USB_REQ_SET_INTERFACE).
  cbv iota beta. rewrite Z.eqb_refl.
  change (arr_read [s0; USB_REQ_SET_INTERFACE; s2; s3; s4; s5; s6; s7] 5)
    with (Some s5).
  change (arr_read [s0; USB_REQ_SET_INTERFACE; s2; s3; s4; s5; s6; s7] 4)
    with (Some s4).
  cbv iota beta. rewrite Hif, Z.eqb_refl.
  change (arr_read [s0; USB_REQ_SET_INTERFACE; s2; s3; s4; s5; s6; s7] 3)
    with (Some s3).
  change (arr_read [s0; USB_REQ_SET_INTERFACE; s2; s3; s4; s5; s6; s7] 2)
    with (Some s2).
  cbv iota beta.
  destruct m as [[ev q pm pb fv mu vo] so ii cd cc us].
  destruct (Z.lor (Z.shiftl s3 8) s2 =? 1); eexists;
    (split; [reflexivity|]);
    unfold start_playback, stop_playback; cbn [audio playback];
    destruct pb; cbn; repeat split; try reflexivity; try discriminate.
Qed.

(** A request the hook refuses changes nothing. *)
Lemma hook_refusal_post setup m :
  M_post (hook setup) m (fun r m' => r = false -> m' = m).
Proof.
  unfold audio_requests_hook. wp; intros Hr; try discriminate Hr; reflexivity.
Qed.

(** The hook returns false, and then leaves the machine as it was, for a
    standard interface request other than SET_INTERFACE, for a
    SET_INTERFACE of another interface than the streaming one, for a class
    request that is not for an interface, and for a request that is neither
    of these types; whenever it returns false it changed nothing. *)
Theorem requests_hook_refusals s0 s1 s2 s3 s4 s5 s6 s7 m :
  let setup := [s0; s1; s2; s3; s4; s5; s6; s7] in
  let std_interface :=
    Z.land s0 (Z.lor USB_RTYPE_TYPE_MASK USB_RTYPE_RECIPIENT_MASK)
    = Z.lor USB_RTYPE_TYPE_STD USB_RTYPE_RECIPIENT_INTERFACE in
  (forall m', hook setup m = Some (false, m') -> m' = m)
  /\ (std_interface -> s1 <> USB_REQ_SET_INTERFACE ->
      hook setup m = Some (false, m))
  /\ (std_interface ->
      Z.lor (Z.shiftl s5 8) s4 <> AUDIO_STREAMING_INTERFACE ->
      hook setup m = Some (false, m))
  /\ (~ std_interface ->
      Z.land s0 USB_RTYPE_TYPE_MASK <> USB_RTYPE_TYPE_CLASS ->
      hook setup m = Some (false, m))
  /\ (~ std_interface ->
      Z.land s0 USB_RTYPE_RECIPIENT_MASK <> USB_RTYPE_RECIPIENT_INTERFACE ->
      hook setup m = Some (false, m))
  /\ (~ std_interface ->
      Z.land s0 USB_RTYPE_TYPE_MASK = USB_RTYPE_TYPE_CLASS ->
      Z.land s0 USB_RTYPE_RECIPIENT_MASK = USB_RTYPE_RECIPIENT_INTERFACE ->
      hook setup m
      = audio_control s4 s5 s1 (Z.lor (Z.shiftl s3 8) s2)
                      (Z.lor (Z.shiftl s7 8) s6) m).
Proof.
  intros setup std_interface. split.
  { intros m' H. now apply (hook_refusal_post setup m false m' H). }
  unfold std_interface, setup, audio_requests_hook, bind, lift, ret.
  change (arr_read [s0; s1; s2; s3; s4; s5; s6; s7] 0) with (Some s0).
  change (arr_read [s0; s1; s2; s3; s4; s5; s6; s7] 1) with (Some s1).
  change (arr_read [s0; s1; s2; s3; s4; s5; s6; s7] 2) with (Some s2).
  change (arr_read [s0; s1; s2; s3; s4; s5; s6; s7] 3) with (Some s3).
  change (arr_read [s0; s1; s2; s3; s4; s5; s6; s7] 4) with (Some s4).
  change (arr_read [s0; s1; s2; s3; s4; s5; s6; s7] 5) with (Some s5).
  change (arr_read [s0; s1; s2; s3; s4; s5; s6; s7] 6) with (Some s6).
  change (arr_read [s0; s1; s2; s3; s4; s5; s6; s7] 7) with (Some s7).
  cbv iota beta.
  repeat split.
  - intros Hstd Hreq. apply Z.eqb_eq in Hstd. apply Z.eqb_neq in Hreq.
    now rewrite Hstd, Hreq.
  - intros Hstd Hif. apply Z.eqb_eq in Hstd. apply Z.eqb_neq in Hif.
    rewrite Hstd, Hif. destruct (s1 =? USB_REQ_SET_INTERFACE); reflexivity.
  - intros Hstd Hty. apply Z.eqb_neq in Hstd. apply Z.eqb_neq in Hty.
    now rewrite Hstd, Hty.
  - intros Hstd Hrc. apply Z.eqb_neq in Hstd. apply Z.eqb_neq in Hrc.
    rewrite Hstd, Hrc.
    destruct (Z.land s0 USB_RTYPE_TYPE_MASK =? USB_RTYPE_TYPE_CLASS);
      reflexivity.
  - intros Hstd Hty Hrc. apply Z.eqb_neq in Hstd.
    apply Z.eqb_eq in Hty. apply Z.eqb_eq in Hrc.
    now rewrite Hstd, Hty, Hrc.
Qed.

End RequestsFacts.

(** The codes of the USB driver header: SET_INTERFACE to interface 1 with
    alternate setting 1 and with alternate setting 2, from the playing
    state. *)
Lemma set_interface_switches_playback_witness :
  let playing := start_playback init_machine in
  let hook := audio_requests_hook 0x60 0x1F 0x00 0x20 0x01 0x0B in
  (exists m', hook [0x01; 0x0B; 1; 0; 1; 0; 0; 0] init_machine = Some (true, m')
              /\ playback (audio m') = true)
  /\ (exists m', hook [0x01; 0x0B; 2; 0; 1; 0; 0; 0] playing = Some (true, m')
                 /\ playback (audio m') = false).
Proof.
  intros playing hook. split.
  - destruct (set_interface_switches_playback 0x60 0x1F 0x00 0x20 0x01 0x0B
                0x01 0x0B 1 0 1 0 0 0 init_machine)
      as (m' & H1 & H2 & _); try reflexivity.
    exists m'. split; [exact H1 | exact H2].
  - destruct (set_interface_switches_playback 0x60 0x1F 0x00 0x20 0x01 0x0B
                0x01 0x0B 2 0 1 0 0 0 playing)
      as (m' & H1 & H2 & _); try reflexivity.
    exists m'. split; [exact H1 | exact H2].
Defined.

Lemma requests_hook_refusals_witness :
  let hook := audio_requests_hook 0x60 0x1F 0x00 0x20 0x01 0x0B in
  hook [0x01; 0x0A; 0; 0; 1; 0; 1; 0] init_machine = Some (false, init_machine)
  /\ hook [0x01; 0x0B; 1; 0; 0; 0; 0; 0] init_machine
     = Some (false, init_machine)
  /\ hook [0x22; 0x01; 0; 1; 1; 0; 3; 0] init_machine
     = Some (false, init_machine)
  /\ hook [0x41; 0x01; 0; 1; 0; 2; 1; 0] init_machine
     = Some (false, init_machine).
Proof.
  intros hook.
  pose proof (requests_hook_refusals 0x60 0x1F 0x00 0x20 0x01 0x0B) as R.
  split; [|split; [|split]].
  - apply (proj1 (proj2 (R 0x01 0x0A 0 0 1 0 1 0 init_machine)));
      [reflexivity | discriminate].
  - apply (proj1 (proj2 (proj2 (R 0x01 0x0B 1 0 0 0 0 0 init_machine))));
      [reflexivity | discriminate].
  - apply (proj1 (proj2 (proj2 (proj2 (proj2
             (R 0x22 0x01 0 1 1 0 3 0 init_machine))))));
      [discriminate | discriminate].
  - apply (proj1 (proj2 (proj2 (proj2
             (R 0x41 0x01 0 1 0 2 1 0 init_machine)))));
      [discriminate | discriminate].
Defined.

(** Every driver event broadcasts the USB-state flag.  A bus reset leaves
    playback stopped, whatever it was; no other event changes it.  Only the
    configured event enables the endpoint, as an isochronous endpoint whose
    callbacks are [audio_feedback] and [audio_received], with 4 bytes at
    most in and [AUDIO_MAX_PACKET_SIZE] = 196 out.  No event touches mute,
    volume, the queue, the capture or the buffers. *)
Theorem usb_event_effects ev m :
  let m' := fst (usb_event ev m) in
  let cfg := snd (usb_event ev m) in
  Z.testbit (audio_events (audio m')) 4 = true
  /\ (ev = USB_EVENT_RESET -> playback (audio m') = false)
  /\ (ev <> USB_EVENT_RESET ->
      playback (audio m') = playback (audio m) /\ usb m' = usb m)
  /\ (cfg <> None <-> ev = USB_EVENT_CONFIGURED)
  /\ (forall c, cfg = Some c ->
      ep_mode c = USB_EP_MODE_TYPE_ISOC
      /\ in_cb c = audio_feedback /\ out_cb c = audio_received
      /\ in_maxsize c = 4 /\ out_maxsize c = 196)
  /\ mute (audio m') = mute (audio m)
  /\ volume (audio m') = volume (audio m)
  /\ audio_queue (audio m') = audio_queue (audio m)
  /\ sof_feedback_valid (audio m') = sof_feedback_valid (audio m)
  /\ sof m' = sof m /\ i2s m' = i2s m /\ control_data m' = control_data m.
Proof.
  destruct m as [[evs q pm pb fv mu vo] so ii cd cc us].
  assert (Hbit : forall e, Z.testbit (Z.lor e AUDIO_EVENT_USB_STATE) 4 = true).
  { intros e. rewrite Z.lor_spec. change (Z.testbit AUDIO_EVENT_USB_STATE 4)
      with true. apply orb_true_r. }
  assert (Hbit' : forall e,
             Z.testbit (Z.lor (Z.lor e AUDIO_EVENT_USB_STATE)
                              AUDIO_EVENT_PLAYBACK) 4 = true).
  { intros e. rewrite Z.lor_spec, Hbit. reflexivity. }
  destruct ev; unfold usb_event, stop_playback; cbn [fst snd];
    cbn [chEvtBroadcastFlagsI audio playback with_audio set_audio_events];
    try (destruct pb); cbn -[Z.testbit Z.lor AUDIO_EVENT_USB_STATE
                              AUDIO_EVENT_PLAYBACK].
  all: split; [first [apply Hbit | apply Hbit']|].
  all: split; [intros; first [reflexivity | discriminate]|].
  all: split; [intros Hne; first [congruence | split; reflexivity]|].
  all: split; [split; intros; congruence|].
  all: split; [intros c Hc; first [discriminate Hc
                                  | injection Hc as <-; repeat split]|].
  all: repeat split.
Qed.

Lemma usb_event_effects_witness :
  playback (audio (fst (usb_event USB_EVENT_RESET (start_playback init_machine))))
  = false
  /\ playback (audio (fst (usb_event USB_EVENT_SUSPEND
                                     (start_playback init_machine)))) = true.
Proof.
  split.
  - now apply (usb_event_effects USB_EVENT_RESET (start_playback init_machine)).
  - destruct (usb_event_effects USB_EVENT_SUSPEND (start_playback init_machine))
      as (_ & _ & H & _).
    destruct H as [H _]; [discriminate|]. rewrite H. reflexivity.
Defined.

(** * Further properties of the data path *)

(** The data callback does nothing when playback is off; when it is on it
    arms the reception of up to [AUDIO_MAX_PACKET_SIZE] = 196 bytes into the
    queue, and it never takes a byte out of the queue nor touches the
    transmission side of the endpoint. *)
Theorem audio_received_arms m :
  (playback (audio m) = false -> audio_received m = m)
  /\ (playback (audio m) = true ->
      ep1_rx (usb (audio_received m)) = Some 196
      /\ ep1_receiving (usb (audio_received m)) = true)
  /\ audio (audio_received m) = audio m
  /\ i2s (audio_received m) = i2s m
  /\ ep1_tx (usb (audio_received m)) = ep1_tx (usb m)
  /\ ep1_transmitting (usb (audio_received m)) = ep1_transmitting (usb m)
  /\ ep0 (usb (audio_received m)) = ep0 (usb m).
Proof.
  unfold audio_received. destruct (playback (audio m));
    repeat split; intros; try reflexivity; try discriminate.
Qed.

Lemma audio_received_arms_witness :
  ep1_rx (usb (audio_received (start_playback init_machine))) = Some 196
  /\ audio_received init_machine = init_machine.
Proof.
  split.
  - now apply (audio_received_arms (start_playback init_machine)).
  - now apply (audio_received_arms init_machine).
Defined.

Lemma memcpy_Some_inv src dst off d :
  memcpy dst off src = Some d ->
  d = take (Z.to_nat off) dst ++ src ++ drop (Z.to_nat off + length src) dst
  /\ length d = length dst.
Proof.
  intros H. split; [|now apply (memcpy_length src dst off)].
  destruct src as [|b src].
  - simpl in H. injection H as <-. simpl. rewrite Nat.add_0_r.
    now rewrite take_drop.
  - destruct (Z_lt_ge_dec off 0) as [Hneg|Hpos].
    { cbn [memcpy] in H. unfold arr_write in H.
      destruct (decide _) as [Hin|_]; [lia | discriminate]. }
    destruct (Z_le_gt_dec (off + Z.of_nat (length (b :: src)))
                          (Z.of_nat (length dst))) as [Hin|Hout].
    + rewrite memcpy_inside in H by lia. now injection H as <-.
    + rewrite memcpy_outside in H; [discriminate | discriminate | lia].
Qed.

(** A turn of the pump neither loses, duplicates nor reorders bytes.  When
    it returns, the thread is parked again, and the bytes missing from the
    front of the queue (none, or exactly [buffern] of them) are the bytes
    now in the buffer at [bufferp], in the same order; the buffer keeps its
    size and its other bytes. *)
Theorem pump_turn_conserves m st :
  Thread1 m = Some st ->
  exists m' moved,
    st = T_suspended m'
    /\ pump (audio m') = true
    /\ audio_queue (audio m) = moved ++ audio_queue (audio m')
    /\ (moved = [] \/ Z.of_nat (length moved) = buffern (i2s m))
    /\ length (dac_buffer (i2s m')) = length (dac_buffer (i2s m))
    /\ (forall off, bufferp (i2s m) = Some off ->
        dac_buffer (i2s m')
        = take (Z.to_nat off) (dac_buffer (i2s m)) ++ moved
            ++ drop (Z.to_nat off + length moved) (dac_buffer (i2s m))).
Proof.
  unfold Thread1, chIQGetFullI, chIQReadTimeout.
  set (q := audio_queue (audio m)). set (b := i2s m).
  destruct (Z.leb_spec (buffern b) (Z.of_nat (length q))) as [Hge|Hlt].
  - destruct (decide (Z.to_nat (buffern b) <= length q)%nat) as [Hk|Hk]; [|lia].
    destruct (write_dac (dac_buffer b) (bufferp b)
                        (take (Z.to_nat (buffern b)) q)) as [buf|] eqn:E;
      [|discriminate].
    intros [= <-]. eexists _, (take (Z.to_nat (buffern b)) q).
    split; [reflexivity|]. cbn.
    split; [reflexivity|]. split; [now rewrite take_drop|].
    split.
    { rewrite length_take.
      destruct (Z_le_gt_dec (buffern b) 0) as [H0|H0].
      - left. replace (Z.to_nat (buffern b)) with 0%nat by lia. reflexivity.
      - right. lia. }
    unfold write_dac in E. destruct (bufferp b) as [off|] eqn:Ep.
    + apply memcpy_Some_inv in E. destruct E as [-> Hl].
      split; [exact Hl|]. intros off' [= <-]. reflexivity.
    + destruct (take (Z.to_nat (buffern b)) q); [|discriminate].
      injection E as <-. split; [reflexivity|]. intros off' [=].
  - intros [= <-]. eexists _, []. split; [reflexivity|]. cbn.
    split; [reflexivity|]. split; [reflexivity|]. split; [now left|].
    split; [reflexivity|]. intros off _. fold b. rewrite Nat.add_0_r.
    now rewrite take_drop.
Qed.

Lemma pump_turn_conserves_witness :
  let m :=
    i2s_callback 1 2
      (with_audio (mk_audio 0 [1; 2; 3; 4; 5] true true false [false; false] [0; 0])
         (with_i2s (mk_i2s [0; 0; 0; 0; 0; 0; 0; 0] None 0 false) init_machine)) in
  exists m',
    Thread1 m = Some (T_suspended m')
    /\ audio_queue (audio m') = [5]
    /\ dac_buffer (i2s m') = [0; 0; 1; 2; 3; 4; 0; 0].
Proof.
  intros m.
  destruct (Thread1 m) as [st|] eqn:E; [|discriminate E].
  destruct (pump_turn_conserves m st E) as (m' & moved & -> & _).
  exists m'. split; [reflexivity|].
  vm_compute in E. injection E as <-. split; reflexivity.
Defined.

Lemma Thread1_copies off n m0 :
  let m := i2s_callback off n m0 in
  let q := audio_queue (audio m0) in
  let buf := dac_buffer (i2s m0) in
  let k := Z.to_nat (u32 (n * 2)) in
  u32 (n * 2) <= Z.of_nat (length q) ->
  0 <= off -> 2 * off + u32 (n * 2) <= Z.of_nat (length buf) ->
  exists m', Thread1 m = Some (T_suspended m')
             /\ audio_queue (audio m') = drop k q
             /\ dac_buffer (i2s m')
                = take (Z.to_nat (2 * off)) buf ++ take k q
                    ++ drop (Z.to_nat (2 * off) + k) buf.
Proof.
  intros m q buf k Hge Hoff Hfit.
  assert (Hq : audio_queue (audio m) = q).
  { unfold m, i2s_callback, chThdResumeI. cbn.
    destruct (pump (audio m0)); reflexivity. }
  assert (Hb : i2s m = mk_i2s buf (Some (2 * off)) (u32 (n * 2))
                         (pump_ready (i2s m)) ).
  { unfold m, i2s_callback, chThdResumeI. cbn.
    destruct (pump (audio m0)); reflexivity. }
  pose proof (u32_range (n * 2)) as Hr.
  unfold Thread1. rewrite Hq, Hb. cbn [buffern bufferp dac_buffer].
  unfold chIQGetFullI, chIQReadTimeout. fold k.
  destruct (u32 (n * 2) <=? Z.of_nat (length q)) eqn:E;
    [|apply Z.leb_gt in E; lia].
  destruct (decide (k <= length q)%nat); [|lia].
  unfold write_dac.
  rewrite memcpy_inside by (rewrite ?length_take; lia).
  eexists. split; [reflexivity|]. cbn.
  split; [reflexivity|]. rewrite length_take.
  replace (k `min` length q)%nat with k by lia. reflexivity.
Qed.

(** Two turns of the pump, one for each half of a buffer of [2 n] samples,
    with at least [4 n] bytes queued: the buffer then holds the first [4 n]
    bytes of the queue in the order they were queued, and these bytes have
    left the queue. *)
Theorem pump_fills_buffer_in_order m0 n :
  let q := audio_queue (audio m0) in
  let buf := dac_buffer (i2s m0) in
  0 <= n -> Z.of_nat (length buf) = 4 * n -> 2 * n < 2 ^ 32 ->
  4 * n <= Z.of_nat (length q) ->
  exists m1 m2,
    Thread1 (i2s_callback 0 n m0) = Some (T_suspended m1)
    /\ Thread1 (i2s_callback n n m1) = Some (T_suspended m2)
    /\ dac_buffer (i2s m2) = take (Z.to_nat (4 * n)) q
    /\ audio_queue (audio m2) = drop (Z.to_nat (4 * n)) q.
Proof.
  intros q buf Hn Hbuf Hsmall Hq.
  assert (Hk : u32 (n * 2) = 2 * n) by (rewrite u32_small; lia).
  destruct (Thread1_copies 0 n m0) as (m1 & T1 & Q1 & B1);
    [fold q; lia | lia | fold buf; lia |].
  fold q in Q1. fold buf in B1. rewrite Hk in Q1, B1.
  set (K := Z.to_nat (2 * n)) in *.
  change (Z.to_nat (2 * 0)) with 0%nat in B1.
  rewrite take_0 in B1. cbn [app Nat.add] in B1. fold q in B1.
  assert (HKq : (K + K <= length q)%nat) by lia.
  assert (HKb : length buf = (K + K)%nat) by lia.
  destruct (Thread1_copies n n m1) as (m2 & T2 & Q2 & B2).
  { rewrite Q1, Hk, length_drop. lia. }
  { lia. }
  { rewrite B1, Hk, length_app, length_take, length_drop. lia. }
  rewrite Hk in Q2, B2. fold K in Q2, B2.
  exists m1, m2. split; [exact T1|]. split; [exact T2|].
  replace (Z.to_nat (4 * n)) with (K + K)%nat by lia.
  split.
  - rewrite B2, B1, Q1.
    rewrite take_app_le by (rewrite length_take; lia).
    rewrite take_take. replace (K `min` K)%nat with K by lia.
    rewrite drop_app_ge by (rewrite length_take; lia).
    rewrite length_take, drop_drop.
    rewrite (drop_ge buf) by lia.
    rewrite app_nil_r. apply take_take_drop.
  - rewrite Q2, Q1. apply drop_drop.
Qed.

Lemma pump_fills_buffer_in_order_witness :
  let m0 :=
    with_audio (mk_audio 0 [1; 2; 3; 4; 5; 6; 7; 8; 9] true true false
                         [false; false] [0; 0])
      (with_i2s (mk_i2s [0; 0; 0; 0; 0; 0; 0; 0] None 0 false) init_machine) in
  exists m1 m2,
    Thread1 (i2s_callback 0 2 m0) = Some (T_suspended m1)
    /\ Thread1 (i2s_callback 2 2 m1) = Some (T_suspended m2)
    /\ dac_buffer (i2s m2) = [1; 2; 3; 4; 5; 6; 7; 8]
    /\ audio_queue (audio m2) = [9].
Proof.
  intros m0.
  destruct (pump_fills_buffer_in_order m0 2)
    as (m1 & m2 & H1 & H2 & H3 & H4);
    [lia | reflexivity | reflexivity | simpl; lia |].
  exists m1, m2. repeat split; assumption.
Defined.

(** * What every run of the demo keeps *)

Lemma machine_inv_shape m m' :
  shape m' = shape m -> machine_inv m -> machine_inv m'.
Proof.
  unfold shape. intros [= E1 E2 E3 E4 E5 E6 E7 E8] [[W1 W2 W3 W4 W5] R].
  unfold machine_inv. rewrite E6, E7, E8. split; [|exact R].
  split; congruence.
Qed.

Ltac lengths :=
  repeat match goal with
         | H : memcpy _ _ _ = Some _ |- _ => apply memcpy_length in H
         | H : arr_write _ _ _ = Some _ |- _ => apply arr_write_length in H
         | H : fill_int16 _ _ _ _ = Some _ |- _ => apply fill_int16_length in H
         end.

Ltac shape_leaf :=
  lengths; unfold shape; cbn in *; congruence.

Lemma control_shape req ctrl channel len m :
  M_post (audio_volume_control req ctrl channel len) m
         (fun _ m' => shape m' = shape m).
Proof.
  destruct m as [[ev q pm pb fv mu vo] so ii cd cc us]. wp; shape_leaf.
Qed.

Lemma data_out_shape payload m :
  M_post (ep0_data_out payload) m (fun _ m' => shape m' = shape m).
Proof.
  destruct m as [[ev q pm pb fv mu vo] so ii cd cc us]. wp; shape_leaf.
Qed.

Lemma data_in_shape m :
  M_post ep0_data_in m (fun _ m' => shape m' = shape m).
Proof.
  destruct m as [[ev q pm pb fv mu vo] so ii cd cc us]. wp; shape_leaf.
Qed.

Lemma hook_shape tm rm std cls ri setif setup m :
  M_post (audio_requests_hook tm rm std cls ri setif setup) m
         (fun _ m' => shape m' = shape m).
Proof.
  destruct m as [[ev q pm [] fv mu vo] so ii cd cc us];
    unfold audio_requests_hook; wp; shape_leaf.
Qed.

Lemma pump_shape m st :
  Thread1 m = Some st ->
  exists m', (st = T_suspended m' \/ st = T_in_queue_read m')
             /\ shape m' = shape m.
Proof.
  unfold Thread1.
  destruct (buffern (i2s m) <=? chIQGetFullI (audio_queue (audio m))).
  - destruct (chIQReadTimeout _ _ _) as [bytes rest|bytes];
      destruct (write_dac _ _ _) as [buf|] eqn:E; try discriminate;
      intros [= <-]; eexists; (split; [eauto|]);
      (assert (Hl : length buf = length (dac_buffer (i2s m)))
        by (unfold write_dac in E; destruct (bufferp (i2s m));
            [eapply memcpy_length; eassumption
            | destruct bytes; [now injection E as <- | discriminate]]));
      unfold shape; cbn; now rewrite Hl.
  - intros [= <-]. eexists. split; [eauto|]. reflexivity.
Qed.

Lemma handler_inv TIM_SR_TIF value sr m :
  machine_inv m -> machine_inv (STM32_TIM2_HANDLER TIM_SR_TIF value sr m).
Proof.
  intros Hinv.
  pose proof (sof_count_range TIM_SR_TIF value sr m (proj1 (proj2 Hinv))) as Hc.
  destruct Hinv as [[W1 W2 W3 W4 W5] (R1 & R2 & R3)].
  unfold machine_inv. split; [|split; [exact Hc|]].
  - destruct m as [[ev q pm pb fv mu vo] [lc de fi co fd] ii cd cc us].
    unfold STM32_TIM2_HANDLER. cbn in *.
    destruct (Z.land sr TIM_SR_TIF =? 0); [split; assumption|].
    destruct fi; [split; assumption|].
    destruct (co =? 31); split; cbn; try assumption; reflexivity.
  - destruct m as [[ev q pm pb fv mu vo] [lc de fi co fd] ii cd cc us].
    unfold STM32_TIM2_HANDLER. cbn in *.
    destruct (Z.land sr TIM_SR_TIF =? 0); [split; assumption|].
    destruct fi; [split; assumption|].
    destruct (co =? 31); cbn; (split; [|assumption]);
      first [apply u32_range | lia].
Qed.

Lemma i2s_callback_inv off n m :
  machine_inv m -> machine_inv (i2s_callback off n m).
Proof.
  intros [[W1 W2 W3 W4 W5] (R1 & R2 & R3)].
  destruct m as [[ev q pm pb fv mu vo] so [db bp bn pr] cd cc us].
  unfold i2s_callback, chThdResumeI. cbn in *.
  destruct pm; (split; [split; assumption|]); cbn;
    (split; [assumption|]); (split; [assumption|]); apply u32_range.
Qed.

Lemma start_sof_capture_inv m :
  machine_inv m -> machine_inv (start_sof_capture m).
Proof.
  intros [[W1 W2 W3 W4 W5] (R1 & R2 & R3)].
  split; [split; assumption|]. cbn. repeat split; try assumption; lia.
Qed.

Section Reactive.

Variable TIM_SR_TIF : Z.
Variables USB_RTYPE_TYPE_MASK USB_RTYPE_RECIPIENT_MASK : Z.
Variables USB_RTYPE_TYPE_STD USB_RTYPE_TYPE_CLASS : Z.
Variable USB_RTYPE_RECIPIENT_INTERFACE : Z.
Variable USB_REQ_SET_INTERFACE : Z.

Local Abbreviation step :=
  (react TIM_SR_TIF USB_RTYPE_TYPE_MASK USB_RTYPE_RECIPIENT_MASK
         USB_RTYPE_TYPE_STD USB_RTYPE_TYPE_CLASS USB_RTYPE_RECIPIENT_INTERFACE
         USB_REQ_SET_INTERFACE).
Local Abbreviation steps :=
  (react_all TIM_SR_TIF USB_RTYPE_TYPE_MASK USB_RTYPE_RECIPIENT_MASK
             USB_RTYPE_TYPE_STD USB_RTYPE_TYPE_CLASS
             USB_RTYPE_RECIPIENT_INTERFACE USB_REQ_SET_INTERFACE).

Lemma react_inv e m m' :
  machine_inv m -> step e m = Some m' -> machine_inv m'.
Proof.
  intros Hinv. destruct e; cbn [react].
  - intros [= <-]. now apply handler_inv.
  - intros [= <-]. now apply start_sof_capture_inv.
  - intros [= <-]. revert Hinv. now apply machine_inv_shape.
  - intros [= <-]. revert Hinv. apply machine_inv_shape.
    unfold audio_feedback.
    destruct (playback (audio m)); [|reflexivity].
    destruct (sof_feedback_valid (audio m)); reflexivity.
  - intros [= <-]. revert Hinv. apply machine_inv_shape.
    unfold audio_received. destruct (playback (audio m)); reflexivity.
  - intros [= <-]. now apply i2s_callback_inv.
  - destruct (Thread1 m) as [st|] eqn:E; [|discriminate].
    destruct (pump_shape m st E) as (m1 & [-> | ->] & Hs);
      intros [= <-]; revert Hinv; now apply machine_inv_shape.
  - destruct (audio_requests_hook _ _ _ _ _ _ setup m) as [[r m1]|] eqn:E;
      [|discriminate].
    intros [= <-]. revert Hinv. apply machine_inv_shape.
    exact (hook_shape _ _ _ _ _ _ setup m r m1 E).
  - destruct (ep0_data_out payload m) as [[r m1]|] eqn:E; [|discriminate].
    intros [= <-]. revert Hinv. apply machine_inv_shape.
    exact (data_out_shape payload m r m1 E).
  - destruct (ep0_data_in m) as [[r m1]|] eqn:E; [|discriminate].
    intros [= <-]. revert Hinv. apply machine_inv_shape.
    exact (data_in_shape m r m1 E).
  - intros [= <-]. revert Hinv. apply machine_inv_shape.
    destruct m as [[ev q pm [] fv mu vo] so ii cd cc us]; destruct e; reflexivity.
Qed.

(** Whatever interrupts, callbacks, control transfers, pump turns and driver
    events occur, in whatever order, as long as no access faults: [mute] and
    [volume] keep their 2 elements, [control_data] its 8 bytes,
    [sof_feedback_data] its 3 bytes and the I2S buffer its size, the frame
    count stays within 0..31, and [sof_delta] and [buffern] within 32
    bits. *)
Theorem machine_inv_kept es : forall m m',
  machine_inv m -> steps es m = Some m' -> machine_inv m'.
Proof.
  induction es as [|e es IH]; intros m m' Hinv; cbn [react_all].
  - now intros [= <-].
  - destruct (step e m) as [m1|] eqn:E; [|discriminate].
    apply IH. exact (react_inv e m m1 Hinv E).
Qed.

End Reactive.

Lemma init_machine_inv : machine_inv init_machine.
Proof.
  split; [exact init_machine_wf|]. cbn. repeat split; lia.
Qed.

Lemma machine_inv_kept_witness :
  exists m',
    react_all 0x40 0x60 0x1F 0x00 0x20 0x01 0x0B
      [E_usb USB_EVENT_CONFIGURED;
       E_setup [0x01; 0x0B; 1; 0; 1; 0; 0; 0];
       E_start_sof_capture; E_tim2 100 0x40; E_received; E_feedback;
       E_i2s 0 96; E_pump;
       E_setup [0x21; 0x01; 1; 2; 0; 2; 2; 0]; E_data_out [0x00; 0xF0];
       E_tim2 12388 0x40]
      init_machine = Some m'
    /\ machine_inv m'
    /\ playback (audio m') = true
    /\ volume (audio m') = [-4096; 0].
Proof.
  match goal with
  | |- exists m', ?run = Some m' /\ _ =>
      destruct run as [m'|] eqn:E; [|vm_compute in E; discriminate E]
  end.
  exists m'. split; [reflexivity|]. split.
  - exact (machine_inv_kept 0x40 0x60 0x1F 0x00 0x20 0x01 0x0B _ init_machine
             m' init_machine_inv E).
  - vm_compute in E. injection E as <-. split; reflexivity.
Defined.

(** * A volume written and read back through SETUP packets *)

Section EndToEnd.

Variables USB_RTYPE_TYPE_MASK USB_RTYPE_RECIPIENT_MASK : Z.
Variables USB_RTYPE_TYPE_STD USB_RTYPE_TYPE_CLASS : Z.
Variable USB_RTYPE_RECIPIENT_INTERFACE : Z.
Variable USB_REQ_SET_INTERFACE : Z.

Local Abbreviation hook :=
  (audio_requests_hook USB_RTYPE_TYPE_MASK USB_RTYPE_RECIPIENT_MASK
     USB_RTYPE_TYPE_STD USB_RTYPE_TYPE_CLASS USB_RTYPE_RECIPIENT_INTERFACE
     USB_REQ_SET_INTERFACE).

Local Abbreviation class_interface :=
  (class_interface_request USB_RTYPE_TYPE_MASK USB_RTYPE_RECIPIENT_MASK
     USB_RTYPE_TYPE_STD USB_RTYPE_TYPE_CLASS USB_RTYPE_RECIPIENT_INTERFACE).

Lemma hook_class_interface s0 s1 s2 s3 s4 s5 s6 s7 m :
  class_interface s0 ->
  hook [s0; s1; s2; s3; s4; s5; s6; s7] m
  = audio_control s4 s5 s1 (Z.lor (Z.shiftl s3 8) s2)
                  (Z.lor (Z.shiftl s7 8) s6) m.
Proof.
  intros (Hstd & Hty & Hrc).
  apply Z.eqb_neq in Hstd. apply Z.eqb_eq in Hty. apply Z.eqb_eq in Hrc.
  unfold audio_requests_hook, bind, lift, ret.
  change (arr_read [s0; s1; s2; s3; s4; s5; s6; s7] 0) with (Some s0).
  change (arr_read [s0; s1; s2; s3; s4; s5; s6; s7] 1) with (Some s1).
  change (arr_read [s0; s1; s2; s3; s4; s5; s6; s7] 2) with (Some s2).
  change (arr_read [s0; s1; s2; s3; s4; s5; s6; s7] 3) with (Some s3).
  change (arr_read [s0; s1; s2; s3; s4; s5; s6; s7] 4) with (Some s4).
  change (arr_read [s0; s1; s2; s3; s4; s5; s6; s7] 5) with (Some s5).
  change (arr_read [s0; s1; s2; s3; s4; s5; s6; s7] 6) with (Some s6).
  change (arr_read [s0; s1; s2; s3; s4; s5; s6; s7] 7) with (Some s7).
  cbv iota beta. now rewrite Hstd, Hty, Hrc.
Qed.

(** A host that sets the volume of channel 1 or 2 with a class request to
    the feature unit (entity 2 of interface 0) and then asks for it with
    another reads back the two bytes it wrote. *)
Theorem volume_round_trip_over_setup s0w s0r channel b0 b1 m :
  wf m -> channel = 1 \/ channel = 2 ->
  0 <= b0 < 256 -> 0 <= b1 < 256 ->
  class_interface s0w -> class_interface s0r ->
  exists m2 m4,
    (let* _ := hook [s0w; UAC_REQ_SET_CUR; channel; UAC_FU_VOLUME_CONTROL;
                     AUDIO_CONTROL_INTERFACE; AUDIO_FUNCTION_UNIT_ID; 2; 0] in
     ep0_data_out [b0; b1]) m = Some (tt, m2)
    /\ volume (audio m2)
       = <[Z.to_nat (channel - 1) := int16_of_bytes b0 b1]> (volume (audio m))
    /\ (let* _ := hook [s0r; UAC_REQ_GET_CUR; channel; UAC_FU_VOLUME_CONTROL;
                        AUDIO_CONTROL_INTERFACE; AUDIO_FUNCTION_UNIT_ID; 2; 0] in
        ep0_data_in) m2 = Some ([b0; b1], m4).
Proof.
  intros Hwf Hch H0 H1 Hw Hr. wf_machine m Hwf.
  pose proof (int16_bytes_of_bytes b0 b1 H0 H1) as Hrt.
  unfold int16_bytes in Hrt. injection Hrt as Hlo Hhi.
  destruct Hch as [-> | ->].
  - do 2 eexists. split.
    { unfold bind at 1. rewrite (hook_class_interface s0w) by assumption.
      match goal with
      | |- context [audio_control ?i ?e ?r ?w ?l ?mm] =>
          change (audio_control i e r w l mm)
            with (audio_volume_control r UAC_FU_VOLUME_CONTROL 1 2 mm)
      end.
      cbv -[int16_of_bytes u8 Z.shiftr Z.shiftl Z.lor]. reflexivity. }
    split; [reflexivity|].
    unfold bind at 1. rewrite (hook_class_interface s0r) by assumption.
    match goal with
    | |- context [audio_control ?i ?e ?r ?w ?l ?mm] =>
        change (audio_control i e r w l mm)
          with (audio_volume_control r UAC_FU_VOLUME_CONTROL 1 2 mm)
    end.
    cbv -[int16_of_bytes u8 Z.shiftr Z.shiftl Z.lor].
    rewrite Hlo, Hhi. reflexivity.
  - do 2 eexists. split.
    { unfold bind at 1. rewrite (hook_class_interface s0w) by assumption.
      match goal with
      | |- context [audio_control ?i ?e ?r ?w ?l ?mm] =>
          change (audio_control i e r w l mm)
            with (audio_volume_control r UAC_FU_VOLUME_CONTROL 2 2 mm)
      end.
      cbv -[int16_of_bytes u8 Z.shiftr Z.shiftl Z.lor]. reflexivity. }
    split; [reflexivity|].
    unfold bind at 1. rewrite (hook_class_interface s0r) by assumption.
    match goal with
    | |- context [audio_control ?i ?e ?r ?w ?l ?mm] =>
        change (audio_control i e r w l mm)
          with (audio_volume_control r UAC_FU_VOLUME_CONTROL 2 2 mm)
    end.
    cbv -[int16_of_bytes u8 Z.shiftr Z.shiftl Z.lor].
    rewrite Hlo, Hhi. reflexivity.
Qed.

End EndToEnd.

Lemma volume_round_trip_over_setup_witness :
  let hook := audio_requests_hook 0x60 0x1F 0x00 0x20 0x01 0x0B in
  exists m2 m4,
    (let* _ := hook [0x21; 0x01; 1; 0x02; 0; 2; 2; 0] in
     ep0_data_out [0x00; 0xE8]) init_machine = Some (tt, m2)
    /\ volume (audio m2) = [-6144; 0]
    /\ (let* _ := hook [0xA1; 0x81; 1; 0x02; 0; 2; 2; 0] in
        ep0_data_in) m2 = Some ([0x00; 0xE8], m4).
Proof.
  intros hook.
  destruct (volume_round_trip_over_setup 0x60 0x1F 0x00 0x20 0x01 0x0B
              0x21 0xA1 1 0x00 0xE8 init_machine init_machine_wf)
    as (m2 & m4 & H1 & H2 & H3);
    [now left | lia | lia
     | repeat split; (discriminate || reflexivity)
     | repeat split; (discriminate || reflexivity) |].
  exists m2, m4. split; [exact H1|]. split; [|exact H3].
  rewrite H2. reflexivity.
Defined.
